(** * kargo developer-environment tool: a model of the helpers in package
      [internal] and the properties of its port-forward manager, existence
      checks and readiness waits.

    The Go code is a thin layer over the operating system (files, processes,
    signals) and over external commands ([kind], [kubectl], [helm]).  The
    functions are embedded as state-passing programs: the port-forward
    manager runs over a [World] holding a file table and a process table,
    the shell helpers over a trace of the commands run so far, answered by
    an arbitrary environment.  Go's library calls ([strings.TrimSpace],
    [strconv.Atoi], [os.ReadFile], [syscall.Kill], ...) are modelled next to
    the code that uses them. *)

From Stdlib Require Import ZArith String Ascii List Bool Lia.
From Stdlib Require Import DecimalString DecimalZ DecimalFacts.
From stdpp Require Import base option gmap strings fin_maps.

Local Open Scope string_scope.
Local Open Scope Z_scope.

(** ** Go error values *)

Inductive Errno := ENOENT | EACCES | EISDIR | ENOTDIR | ENOTEMPTY | ESRCH | EPERM.

Inductive NumErr := ErrSyntax | ErrRange.

(** The error values the code meets.  [wrapError format err] is
    [fmt.Errorf(format + "%w", err)]: its message is [format] followed by
    the message of [err], and it unwraps to [err]. *)
Inductive error :=
| errorString (msg : string)
| wrapError (format : string) (err : error)
| PathError (op path : string) (errno : Errno)
| NumError (func num : string) (e : NumErr)
| SyscallError (errno : Errno)
| ErrProcessDone
| ExecError (name : string).

(** ** Go strings *)

Module GoStrings.

(** Bytes as numbers, to write down UTF-8 sequences. *)
Definition bytes (l : list nat) : string :=
  string_of_list_ascii (map ascii_of_nat l).

(** The UTF-8 encodings of the code points with the Unicode White_Space
    property, which is what [unicode.IsSpace] tests: U+0009..U+000D, U+0020,
    U+0085, U+00A0, U+1680, U+2000..U+200A, U+2028, U+2029, U+202F, U+205F
    and U+3000. *)
Definition space_runes : list string :=
  map bytes
    [ [9%nat]; [10%nat]; [11%nat]; [12%nat]; [13%nat]; [32%nat];
      [194; 133]%nat; [194; 160]%nat;
      [225; 154; 128]%nat;
      [226; 128; 128]%nat; [226; 128; 129]%nat; [226; 128; 130]%nat;
      [226; 128; 131]%nat; [226; 128; 132]%nat; [226; 128; 133]%nat;
      [226; 128; 134]%nat; [226; 128; 135]%nat; [226; 128; 136]%nat;
      [226; 128; 137]%nat; [226; 128; 138]%nat;
      [226; 128; 168]%nat; [226; 128; 169]%nat; [226; 128; 175]%nat;
      [226; 129; 159]%nat;
      [227; 128; 128]%nat ].

Fixpoint dropBytes (n : nat) (s : string) : string :=
  match n, s with
  | O, _ => s
  | S n', String _ r => dropBytes n' r
  | S _, EmptyString => EmptyString
  end.

Fixpoint revBytes_append (s acc : string) : string :=
  match s with
  | EmptyString => acc
  | String c r => revBytes_append r (String c acc)
  end.

Definition revBytes (s : string) : string := revBytes_append s EmptyString.

(** One leading white-space rune removed, when there is one. *)
Fixpoint strip_one (runes : list string) (s : string) : option string :=
  match runes with
  | [] => None
  | r :: rs =>
      if String.prefix r s then Some (dropBytes (String.length r) s)
      else strip_one rs s
  end.

Fixpoint trim_left (runes : list string) (fuel : nat) (s : string) : string :=
  match fuel with
  | O => s
  | S fuel' =>
      match strip_one runes s with
      | Some s' => trim_left runes fuel' s'
      | None => s
      end
  end.

Definition TrimLeftSpace (s : string) : string :=
  trim_left space_runes (String.length s) s.

(** Trailing white space is leading white space of the reversed string,
    matched against the reversed encodings. *)
Definition TrimRightSpace (s : string) : string :=
  revBytes (trim_left (map revBytes space_runes) (String.length s) (revBytes s)).

(** [strings.TrimSpace]: all leading and trailing white space removed. *)
Definition TrimSpace (s : string) : string :=
  TrimRightSpace (TrimLeftSpace s).

(** [strings.Split(s, "\n")]: the pieces between line feeds; never empty. *)
Fixpoint SplitLines (s : string) : list string :=
  match s with
  | EmptyString => [EmptyString]
  | String c r =>
      if Ascii.eqb c "010"%char then EmptyString :: SplitLines r
      else match SplitLines r with
           | h :: t => String c h :: t
           | [] => [String c EmptyString]
           end
  end.

(** [strings.Contains]. *)
Fixpoint Contains (s substr : string) : bool :=
  if String.prefix substr s then true
  else match s with
       | EmptyString => false
       | String _ r => Contains r substr
       end.

(** The range of Go's [int] on the 64-bit platforms the tool runs on. *)
Definition minInt : Z := - 2 ^ 63.
Definition maxInt : Z := 2 ^ 63 - 1.

(** The syntax and range check of [strconv.Atoi]: an optional sign, then
    one or more decimal digits, and the value must fit in an [int].  (For a
    string that has both too many digits and a character that is no digit,
    Go reports the error it meets first; here it is the syntax error.  The
    functions below only ask whether there is an error.) *)
Definition parseInt (s : string) : Z + NumErr :=
  match s with
  | EmptyString => inr ErrSyntax
  | String c r =>
      let neg := Ascii.eqb c "-"%char in
      let digits := if neg || Ascii.eqb c "+"%char then r else s in
      match digits with
      | EmptyString => inr ErrSyntax
      | _ =>
          match NilEmpty.uint_of_string digits with
          | None => inr ErrSyntax
          | Some u =>
              let n := Z.of_N (N.of_uint u) in
              let v := if neg then - n else n in
              if (minInt <=? v) && (v <=? maxInt) then inl v else inr ErrRange
          end
      end
  end.

(** [strconv.Atoi]: failures are reported as a [strconv.NumError]. *)
Definition Atoi (s : string) : Z + error :=
  match parseInt s with
  | inl n => inl n
  | inr e => inr (NumError "Atoi" s e)
  end.

(** [fmt.Sprintf("%d", n)]. *)
Definition Itoa (n : Z) : string := NilZero.string_of_int (Z.to_int n).

(** The characters of a decimal numeral: the digits and the minus sign. *)
Definition numeral_char (c : ascii) : bool :=
  Ascii.eqb c "-"%char
  || ((48 <=? nat_of_ascii c)%nat && (nat_of_ascii c <=? 57)%nat).

Fixpoint numeral (s : string) : bool :=
  match s with
  | EmptyString => true
  | String c r => numeral_char c && numeral r
  end.

End GoStrings.

Import GoStrings.

(** ** The operating system under the port-forward manager *)

(** A file-table entry: a directory, or a regular file with its contents
    and whether the caller may read and write it.  The file table is flat:
    an entry is found by its whole path, and the directories above it are
    not consulted. *)
Inductive node :=
| Dir
| File (data : string) (readable writable : bool).

(** A process-table entry: its process group, whether the caller is
    allowed to signal it, and its command line. *)
Record proc := mkProc { pgid : positive; owned : bool; argv : list string }.

Inductive Signal := Signal0 | SIGTERM | SIGKILL.

(** What the functions can observe and change: the files by path, the live
    processes by process id, and the executables found on the PATH. *)
Record World := mkWorld {
  files : gmap string node;
  procs : gmap positive proc;
  executables : gset string
}.

#[global] Instance Errno_eq_dec : EqDecision Errno.
Proof. solve_decision. Defined.
#[global] Instance NumErr_eq_dec : EqDecision NumErr.
Proof. solve_decision. Defined.
#[global] Instance error_eq_dec : EqDecision error.
Proof. solve_decision. Defined.
#[global] Instance node_eq_dec : EqDecision node.
Proof. solve_decision. Defined.
#[global] Instance proc_eq_dec : EqDecision proc.
Proof. solve_decision. Defined.

(** State passing: a computation takes the world and returns its result with
    the world it leaves behind. *)
Definition M (A : Type) : Type := World -> A * World.

#[global] Instance M_ret : MRet M := fun A x w => (x, w).
#[global] Instance M_bind : MBind M :=
  fun A B f m w => let '(x, w') := m w in f x w'.

Module OS.

(** [os.Stat], reduced to its error: a path that is not in the file table
    does not exist. *)
Definition Stat (path : string) : M (option error) := fun w =>
  match files w !! path with
  | Some _ => (None, w)
  | None => (Some (PathError "stat" path ENOENT), w)
  end.

(** [os.IsNotExist]: looks under a [PathError], not under [fmt.Errorf]
    wrapping; false for no error. *)
Definition IsNotExist (err : option error) : bool :=
  match err with
  | Some (PathError _ _ ENOENT) | Some (SyscallError ENOENT) => true
  | _ => false
  end.

(** [os.ReadFile]. *)
Definition ReadFile (path : string) : M (string + error) := fun w =>
  match files w !! path with
  | Some (File data true _) => (inl data, w)
  | Some (File _ false _) => (inr (PathError "open" path EACCES), w)
  | Some Dir => (inr (PathError "read" path EISDIR), w)
  | None => (inr (PathError "open" path ENOENT), w)
  end.

(** [os.WriteFile(path, data, 0644)]: an existing file is truncated and
    rewritten when the caller may write it and keeps its permissions; a
    missing one is created readable and writable by the caller. *)
Definition WriteFile (path data : string) : M (option error) := fun w =>
  match files w !! path with
  | Some Dir => (Some (PathError "open" path EISDIR), w)
  | Some (File _ _ false) => (Some (PathError "open" path EACCES), w)
  | Some (File _ r true) =>
      (None, mkWorld (<[path := File data r true]> (files w)) (procs w) (executables w))
  | None =>
      (None, mkWorld (<[path := File data true true]> (files w)) (procs w) (executables w))
  end.

(** Whether some entry of the file table lies below a directory. *)
Definition has_children (path : string) (fs : gmap string node) : bool :=
  negb (bool_decide (map_Forall (fun k _ => String.prefix (path ++ "/") k = false) fs)).

(** [os.Remove]: unlinks a file, removes an empty directory.  (The PID
    files live in the tool's own data directory, where the caller may
    unlink.) *)
Definition Remove (path : string) : M (option error) := fun w =>
  match files w !! path with
  | None => (Some (PathError "remove" path ENOENT), w)
  | Some Dir =>
      if has_children path (files w)
      then (Some (PathError "remove" path ENOTEMPTY), w)
      else (None, mkWorld (delete path (files w)) (procs w) (executables w))
  | Some (File _ _ _) =>
      (None, mkWorld (delete path (files w)) (procs w) (executables w))
  end.

(** [os.MkdirAll(path, 0755)]: nothing to do for an existing directory, an
    error when the path is a regular file. *)
Definition MkdirAll (path : string) : M (option error) := fun w =>
  match files w !! path with
  | Some Dir => (None, w)
  | Some (File _ _ _) => (Some (PathError "mkdir" path ENOTDIR), w)
  | None => (None, mkWorld (<[path := Dir]> (files w)) (procs w) (executables w))
  end.

(** Which processes a [kill(2)] target addresses: a positive target is one
    process, a target below -1 a process group, -1 every process but init.
    Target 0 is the caller's own process group, which the process table
    does not track: the table holds the other processes of the machine. *)
Definition addressed (target : Z) (p : positive) (pr : proc) : bool :=
  if 0 <? target then Z.pos p =? target
  else if target <? -1 then Z.pos (pgid pr) =? - target
  else if target =? -1 then negb (Pos.eqb p 1)
  else false.

Definition recipients (target : Z) (ps : gmap positive proc) : gmap positive proc :=
  filter (fun kv => addressed target kv.1 kv.2 = true) ps.

Definition deliverable (target : Z) (ps : gmap positive proc) : gmap positive proc :=
  filter (fun kv => owned kv.2 = true) (recipients target ps).

(** A delivered [SIGTERM] or [SIGKILL] ends its recipients (for [SIGTERM]
    this is the default disposition); the null signal only probes. *)
Definition deliver (sig : Signal) (hit : gmap positive proc) (w : World) : World :=
  match sig with
  | Signal0 => w
  | SIGTERM | SIGKILL => mkWorld (files w) (procs w ∖ hit) (executables w)
  end.

(** [syscall.Kill]: [ESRCH] when the target addresses no process, [EPERM]
    when the caller may signal none of those it addresses, and otherwise
    the signal goes to every addressed process the caller may signal. *)
Definition Kill (target : Z) (sig : Signal) : M (option error) := fun w =>
  if decide (recipients target (procs w) = ∅)
  then (Some (SyscallError ESRCH), w)
  else if decide (deliverable target (procs w) = ∅)
  then (Some (SyscallError EPERM), w)
  else (None, deliver sig (deliverable target (procs w)) w).

(** [os.FindProcess]: on Unix it always succeeds, whether or not a process
    with that id exists; the handle is the id. *)
Definition FindProcess (pid : Z) : Z + error := inl pid.

(** [os.Process.Signal]: refuses the ids -1 and 0 before any system
    call, and reports a missing process as [os.ErrProcessDone]. *)
Definition Process_Signal (process : Z) (sig : Signal) : M (option error) :=
  if process =? -1 then mret (Some (errorString "os: process already released"))
  else if process =? 0 then mret (Some (errorString "os: process not initialized"))
  else
    e ← Kill process sig;
    mret (match e with
          | Some (SyscallError ESRCH) => Some ErrProcessDone
          | _ => e
          end).

(** [os.Process.Kill]. *)
Definition Process_Kill (process : Z) : M (option error) :=
  Process_Signal process SIGKILL.

(** [exec.Command(name, args...)] with [SysProcAttr.Setsid] set, then
    [cmd.Start()]: fails when the executable is not found; otherwise the
    child gets an unused process id and leads a new session and process
    group of its own. *)
Definition Cmd_Start_Setsid (name : string) (args : list string) : M (positive + error) :=
  fun w =>
    if decide (name ∈ executables w) then
      let pid := fresh (dom (procs w)) in
      (inl pid,
       mkWorld (files w) (<[pid := mkProc pid true (name :: args)]> (procs w))
               (executables w))
    else (inr (ExecError name), w).

(** [filepath.Join]: the elements separated by slashes.  ([Join] also
    cleans the result, which changes nothing for a clean base directory and
    names without slashes or dot segments.) *)
Fixpoint Join (elems : list string) : string :=
  match elems with
  | [] => ""
  | [e] => e
  | e :: rest => e ++ "/" ++ Join rest
  end.

End OS.

Import OS.

(** ** The port-forward manager *)

Section PortForward.

(** [xdg.DataHome], the per-user data directory. *)
Variable DataHome : string.

(** PortForwardPIDFile returns the path to the PID file for port
    forwarding. *)
Definition PortForwardPIDFile (service namespace : string) : string :=
  Join [DataHome; "kargo"; "port-forward-" ++ service ++ "-" ++ namespace ++ ".pid"].

(** IsPortForwardRunning checks if a port forwarding process is already
    running.  The result is Go's triple (running, pid, err). *)
Definition IsPortForwardRunning (service namespace : string)
  : M (bool * Z * option error) :=
  let pidFile := PortForwardPIDFile service namespace in
  err ← Stat pidFile;
  if IsNotExist err then mret (false, 0, None)
  else
    r ← ReadFile pidFile;
    match r with
    | inr err => mret (false, 0, Some (wrapError "failed to read PID file: " err))
    | inl pidBytes =>
        match Atoi (TrimSpace pidBytes) with
        | inr err => mret (false, 0, Some (wrapError "failed to parse PID: " err))
        | inl pid =>
            match FindProcess pid with
            | inr _ => mret (false, 0, None)
            | inl process =>
                err ← Process_Signal process Signal0;
                match err with
                | Some _ =>
                    _ ← Remove pidFile;
                    mret (false, 0, None)
                | None => mret (true, pid, None)
                end
            end
        end
    end.

(** StartPortForward starts a port forwarding process in the background.
    The result is Go's pair (pid, err). *)
Definition StartPortForward (service namespace : string) (localPort remotePort : Z)
  : M (Z * option error) :=
  let kargoDir := Join [DataHome; "kargo"] in
  err ← MkdirAll kargoDir;
  match err with
  | Some err =>
      mret (0, Some (wrapError "failed to create kargo data directory: " err))
  | None =>
      r ← Cmd_Start_Setsid "kubectl"
            ["port-forward"; "svc/" ++ service;
             Itoa localPort ++ ":" ++ Itoa remotePort;
             "--namespace"; namespace];
      match r with
      | inr err => mret (0, Some (wrapError "failed to start port-forward: " err))
      | inl cmd_Process_Pid =>
          let pidFile := PortForwardPIDFile service namespace in
          err ← WriteFile pidFile (Itoa (Z.pos cmd_Process_Pid));
          match err with
          | Some err =>
              _ ← Process_Kill (Z.pos cmd_Process_Pid);
              mret (0, Some (wrapError "failed to save PID file: " err))
          | None => mret (Z.pos cmd_Process_Pid, None)
          end
      end
  end.

(** StopPortForward stops a running port forwarding process. *)
Definition StopPortForward (service namespace : string) : M (option error) :=
  '(running, pid, err) ← IsPortForwardRunning service namespace;
  match err with
  | Some err => mret (Some (wrapError "failed to check port forwarding status: " err))
  | None =>
      if negb running then mret (Some (errorString "port forwarding is not running"))
      else
        err ← Kill (- pid) SIGTERM;
        match err with
        | Some err =>
            mret (Some (wrapError "failed to stop port forwarding process: " err))
        | None =>
            let pidFile := PortForwardPIDFile service namespace in
            _ ← Remove pidFile;
            mret None
        end
  end.

(** *** Vocabulary of the specification *)

(** The PID file of the pair holds the decimal process id [pid]. *)
Definition records (w : World) (service namespace : string) (pid : Z) : Prop :=
  exists data wr,
    files w !! PortForwardPIDFile service namespace = Some (File data true wr)
    /\ Atoi (TrimSpace data) = inl pid.

(** A process with id [pid] is alive and answers the caller's probes. *)
Definition alive (w : World) (pid : Z) : Prop :=
  exists p pr, pid = Z.pos p /\ procs w !! p = Some pr /\ owned pr = true.

(** No process has the id [pid]. *)
Definition dead (w : World) (pid : Z) : Prop :=
  forall p, pid = Z.pos p -> procs w !! p = None.

(** The pair has a running session: its PID file records a live process. *)
Definition session_running (w : World) (service namespace : string) (pid : Z) : Prop :=
  records w service namespace pid /\ alive w pid.

(** The PID file of the pair is stale: it records a process id, and no
    such process is alive. *)
Definition stale (w : World) (service namespace : string) : Prop :=
  exists pid, 0 < pid /\ records w service namespace pid /\ dead w pid.

(** No PID file exists for the pair. *)
Definition no_pid_file (w : World) (service namespace : string) : Prop :=
  files w !! PortForwardPIDFile service namespace = None.

End PortForward.

(** The world with one path unlinked. *)
Definition unlinked (path : string) (w : World) : World :=
  mkWorld (delete path (files w)) (procs w) (executables w).

(** The process id [cmd.Start] hands out in a world. *)
Definition child_of (w : World) : positive := fresh (dom (procs w)).

(** The command line of the forwarder. *)
Definition forwarder (service namespace : string) (localPort remotePort : Z)
  : list string :=
  ["kubectl"; "port-forward"; "svc/" ++ service;
   Itoa localPort ++ ":" ++ Itoa remotePort; "--namespace"; namespace].

(** The world with something else at one path. *)
Definition with_file (path : string) (nd : node) (w : World) : World :=
  mkWorld (<[path := nd]> (files w)) (procs w) (executables w).

(** *** Scenarios *)

Module Scenario.

Definition home : string := "/home/dev/.local/share".
Definition pidFile : string := PortForwardPIDFile home "argocd-server" "argocd".

(** A session started earlier and still running: the forwarder leads its
    own process group. *)
Definition running_world : World :=
  mkWorld {[ Join [home; "kargo"] := Dir; pidFile := File "4711" true true ]}
          {[ 4711%positive :=
               mkProc 4711 true
                 ["kubectl"; "port-forward"; "svc/argocd-server"; "8080:443";
                  "--namespace"; "argocd"] ]}
          {[ "kubectl" ]}.

(** The forwarder was killed from outside; its PID file is left behind. *)
Definition stale_world : World :=
  mkWorld (files running_world) ∅ (executables running_world).

(** The recorded process id now belongs to a live process that sits in
    another process's group, so no process group has that id. *)
Definition recycled_world : World :=
  mkWorld (files running_world)
          {[ 4000%positive := mkProc 4000 true ["make"; "serve"];
             4711%positive := mkProc 4000 true ["node"; "server.js"] ]}
          (executables running_world).

(** The PID file holds something that is not a number. *)
Definition garbled_world : World :=
  mkWorld {[ Join [home; "kargo"] := Dir; pidFile := File "not-a-pid" true true ]}
          ∅ {[ "kubectl" ]}.

(** The PID file cannot be read. *)
Definition unreadable_world : World :=
  mkWorld {[ Join [home; "kargo"] := Dir; pidFile := File "4711" false true ]}
          ∅ {[ "kubectl" ]}.

(** The PID file is write-protected. *)
Definition readonly_world : World :=
  mkWorld {[ Join [home; "kargo"] := Dir; pidFile := File "" true false ]}
          ∅ {[ "kubectl" ]}.

(** The same, with a forwarder just spawned. *)
Definition readonly_spawned : World :=
  mkWorld (files readonly_world)
          {[ 1%positive :=
               mkProc 1 true (forwarder "argocd-server" "argocd" 8080 443) ]}
          (executables readonly_world).

(** Nothing was ever started. *)
Definition fresh_world : World := mkWorld ∅ ∅ {[ "kubectl" ]}.

End Scenario.

(** ** External commands *)

(** What an external command gives back through mage's [sh] package: the
    error of [sh.Run] and [sh.Output] ([None] for exit status zero) and the
    standard output as [sh.Output] returns it. *)
Record CmdResult := mkResult { cmd_err : option error; cmd_out : string }.

(** What the functions do to the outside, in order. *)
Inductive event :=
| Run (cmd : string) (args : list string)
| Sleep (seconds : Z)
| Stdout (msg : string).

#[global] Instance event_eq_dec : EqDecision event.
Proof. solve_decision. Defined.

(** The environment answers a command from everything that happened so
    far: any deterministic cluster, package manager or fake probe is such a
    function. *)
Definition Env : Type := list event -> string -> list string -> CmdResult.

(** State passing over the trace of events. *)
Definition Sh (A : Type) : Type := list event -> A * list event.

#[global] Instance Sh_ret : MRet Sh := fun A x t => (x, t).
#[global] Instance Sh_bind : MBind Sh :=
  fun A B f m t => let '(x, t') := m t in f x t'.

Definition nl : string := String "010"%char EmptyString.

Section Shell.

Variable env : Env.

(** [sh.Run]. *)
Definition sh_Run (cmd : string) (args : list string) : Sh (option error) :=
  fun t => (cmd_err (env t cmd args), (t ++ [Run cmd args])%list).

(** [sh.Output]. *)
Definition sh_Output (cmd : string) (args : list string) : Sh (string * option error) :=
  fun t => let r := env t cmd args in ((cmd_out r, cmd_err r), (t ++ [Run cmd args])%list).

(** [time.Sleep(n * time.Second)]. *)
Definition time_Sleep (seconds : Z) : Sh unit :=
  fun t => (tt, (t ++ [Sleep seconds])%list).

(** [fmt.Printf] with its arguments already formatted. *)
Definition Printf (msg : string) : Sh unit :=
  fun t => (tt, (t ++ [Stdout msg])%list).

(** [for i := from; i < from + count; i++ { body }; rest], where the body
    either returns from the function ([Some]) or falls through to the next
    round ([None]). *)
Fixpoint for_range {R : Type} (from : Z) (count : nat)
    (body : Z -> Sh (option R)) (rest : Sh R) : Sh R :=
  match count with
  | O => rest
  | S count' =>
      r ← body from;
      match r with
      | Some v => mret v
      | None => for_range (from + 1) count' body rest
      end
  end.

(** ReleaseExists checks if a helm release exists in the specified
    namespace. *)
Definition ReleaseExists (name namespace : string) : Sh (bool * option error) :=
  err ← sh_Run "helm" ["status"; name; "--namespace"; namespace];
  match err with
  | Some _ => mret (false, None)
  | None => mret (true, None)
  end.

(** ArgoRolloutsExists checks if Argo Rollouts is installed by checking for
    the controller pod. *)
Definition ArgoRolloutsExists (namespace : string) : Sh (bool * option error) :=
  '(output, err) ← sh_Output "kubectl"
      ["get"; "pods"; "--namespace"; namespace; "-l";
       "app.kubernetes.io/name=argo-rollouts"; "--no-headers"];
  match err with
  | Some _ => mret (false, None)
  | None => mret (negb (String.eqb (TrimSpace output) ""), None)
  end.

(** One round of the loop of WaitForNamespaceDeleted. *)
Definition namespace_round (namespace : string) (i : Z) : Sh (option (option error)) :=
  err ← sh_Run "kubectl" ["get"; "namespace"; namespace];
  match err with
  | Some _ =>
      _ ← Printf ("✅ Namespace '" ++ namespace ++ "' has been deleted" ++ nl);
      mret (Some None)
  | None =>
      _ ← time_Sleep 1;
      mret None
  end.

(** WaitForNamespaceDeleted waits for a namespace to be completely
    deleted. *)
Definition WaitForNamespaceDeleted (namespace : string) : Sh (option error) :=
  _ ← Printf ("⏳ Waiting for namespace '" ++ namespace ++ "' to be fully deleted..." ++ nl);
  for_range 0 60 (namespace_round namespace)
    (mret (Some (errorString
       ("timeout waiting for namespace '" ++ namespace ++ "' to be deleted")))).

(** One round of the loop of WaitForArgoRolloutsReady. *)
Definition rollouts_round (namespace : string) (i : Z) : Sh (option (option error)) :=
  '(output, err) ← sh_Output "kubectl"
      ["get"; "pods"; "--namespace"; namespace; "-l";
       "app.kubernetes.io/name=argo-rollouts"; "--no-headers"];
  if bool_decide (err = None) && Contains output "Running" then
    _ ← Printf ("✅ Argo Rollouts is ready" ++ nl);
    mret (Some None)
  else
    _ ← time_Sleep 1;
    mret None.

(** WaitForArgoRolloutsReady waits for Argo Rollouts to be ready. *)
Definition WaitForArgoRolloutsReady (namespace : string) : Sh (option error) :=
  _ ← Printf ("⏳ Waiting for Argo Rollouts to be ready in namespace '" ++ namespace ++ "'..." ++ nl);
  for_range 0 60 (rollouts_round namespace)
    (mret (Some (errorString
       ("timeout waiting for Argo Rollouts to be ready in namespace '" ++ namespace ++ "'")))).

(** The loop over the lines of the cluster listing in ClusterExists. *)
Fixpoint range_clusters (lines : list string) (name : string) : bool * option error :=
  match lines with
  | [] => (false, None)
  | cluster :: lines' =>
      if String.eqb (TrimSpace cluster) name then (true, None)
      else range_clusters lines' name
  end.

(** ClusterExists checks if the specified kind cluster exists. *)
Definition ClusterExists (name : string) : Sh (bool * option error) :=
  '(clusters, err) ← sh_Output "kind" ["get"; "clusters"];
  match err with
  | Some err => mret (false, Some (wrapError "failed to get clusters: " err))
  | None => mret (range_clusters (SplitLines clusters) name)
  end.

End Shell.

(** *** Vocabulary of the specification *)

(** The commands run, in order: what a fake probe would count. *)
Definition probes (t : list event) : list event :=
  List.filter (fun e => match e with Run _ _ => true | _ => false end) t.

(** The pauses taken, in order. *)
Definition sleeps (t : list event) : list Z :=
  omap (fun e => match e with Sleep s => Some s | _ => None end) t.

(** [k] unsuccessful rounds of a readiness wait: a probe, then a pause of
    one second, [k] times. *)
Definition rounds (cmd : string) (args : list string) (k : nat) : list event :=
  concat (replicate k [Run cmd args; Sleep 1]).

(** The probes of the two readiness waits. *)
Definition namespace_probe (namespace : string) : list string :=
  ["get"; "namespace"; namespace].

Definition rollouts_probe (namespace : string) : list string :=
  ["get"; "pods"; "--namespace"; namespace; "-l";
   "app.kubernetes.io/name=argo-rollouts"; "--no-headers"].

(** The progress lines the waits print first. *)
Definition namespace_banner (namespace : string) : event :=
  Stdout ("⏳ Waiting for namespace '" ++ namespace ++ "' to be fully deleted..." ++ nl).

Definition rollouts_banner (namespace : string) : event :=
  Stdout ("⏳ Waiting for Argo Rollouts to be ready in namespace '" ++ namespace ++ "'..." ++ nl).

(** What the probes of the two waits would meet after the events [t]: the
    namespace query fails (the namespace is gone); the pod listing succeeds
    and mentions a running pod. *)
Definition namespace_gone (env : Env) (namespace : string) (t : list event) : bool :=
  match cmd_err (env t "kubectl" (namespace_probe namespace)) with
  | Some _ => true
  | None => false
  end.

Definition rollouts_ready (env : Env) (namespace : string) (t : list event) : bool :=
  let r := env t "kubectl" (rollouts_probe namespace) in
  bool_decide (cmd_err r = None) && Contains (cmd_out r) "Running".

(** The errors the waits give up with. *)
Definition namespace_timeout (namespace : string) : error :=
  errorString ("timeout waiting for namespace '" ++ namespace ++ "' to be deleted").

Definition rollouts_timeout (namespace : string) : error :=
  errorString ("timeout waiting for Argo Rollouts to be ready in namespace '"
               ++ namespace ++ "'").

(** *** Fake environments *)

Module Fake.

(** How many commands have been run so far. *)
Definition calls (t : list event) : nat := length (probes t).

(** A cluster in which every command succeeds and prints [out], except
    that the first [k] commands print nothing. *)
Definition ready_after (k : nat) (out : string) : Env :=
  fun t _ _ => mkResult None (if (calls t <? k)%nat then "" else out).

(** A cluster in which the first [k] commands succeed and every later one
    fails: a namespace that is gone after [k] looks. *)
Definition gone_after (k : nat) : Env :=
  fun t _ _ =>
    mkResult (if (calls t <? k)%nat then None
              else Some (errorString "running kubectl failed with exit code 1")) "".

(** Every command succeeds and prints nothing, for ever. *)
Definition never : Env := fun _ _ _ => mkResult None "".

(** Every command is refused. *)
Definition denied : Env :=
  fun _ _ _ => mkResult (Some (errorString "permission denied")) "".

(** The cluster listing of [kind]. *)
Definition listing (out : string) : Env := fun _ _ _ => mkResult None out.

End Fake.

(** ** Further vocabulary *)

(** The six ASCII white-space bytes: tab, line feed, vertical tab, form
    feed, carriage return and space. *)
Definition ascii_space (c : ascii) : bool :=
  let n := nat_of_ascii c in
  ((9 <=? n)%nat && (n <=? 13)%nat) || (n =? 32)%nat.

(** A string of ASCII white space only. *)
Fixpoint blank (s : string) : bool :=
  match s with
  | EmptyString => true
  | String c r => ascii_space c && blank r
  end.

(** The processes a delivered signal to process group [g] ends: the
    members of the group that the caller may signal. *)
Definition in_group (g : positive) (pr : proc) : bool :=
  Pos.eqb (pgid pr) g && owned pr.

Module MoreScenarios.

Import Scenario.

(** The recorded process id now belongs to a live process of another
    user, which the caller may not signal. *)
Definition foreign_world : World :=
  mkWorld (files running_world)
          {[ 1%positive := mkProc 1 false ["/sbin/init"];
             4711%positive := mkProc 4711 false ["sshd"] ]}
          (executables running_world).

(** The PID file was written by hand, with a line feed after the number. *)
Definition echoed_world : World :=
  mkWorld {[ Join [home; "kargo"] := Dir;
             pidFile := File (" 4711" ++ nl) true true ]}
          (procs running_world) (executables running_world).

(** A machine with init and a shell, where nothing was started yet. *)
Definition booted_world : World :=
  mkWorld ∅
          {[ 1%positive := mkProc 1 false ["/sbin/init"];
             812%positive := mkProc 812 true ["bash"] ]}
          {[ "kubectl" ]}.

(** The forwarder has spawned a helper that stays in its process group. *)
Definition family_world : World :=
  mkWorld (files running_world)
          {[ 1%positive := mkProc 1 false ["/sbin/init"];
             812%positive := mkProc 812 true ["bash"];
             4711%positive := mkProc 4711 true ["kubectl"; "port-forward"];
             4720%positive := mkProc 4711 true ["kubectl"; "helper"] ]}
          (executables running_world).

(** The data directory cannot be made: a regular file is in its place. *)
Definition blocked_world : World :=
  mkWorld {[ Join [home; "kargo"] := File "" true true ]}
          (procs booted_world) {[ "kubectl" ]}.

(** [kubectl] is not installed. *)
Definition bare_world : World :=
  mkWorld ∅ (procs booted_world) ∅.

End MoreScenarios.

(** A listing with one entry per line, as [kind get clusters] prints its
    cluster names: the entries separated by line feeds. *)
Fixpoint JoinLines (lines : list string) : string :=
  match lines with
  | [] => ""
  | [l] => l
  | l :: rest => l ++ nl ++ JoinLines rest
  end.

(** ** The helpers around [kind] and [helm] *)

Section Helpers.

Variable env : Env.

(** CreateCluster creates a new kind cluster with the given name. *)
Definition CreateCluster (name : string) : Sh (option error) :=
  sh_Run env "kind" ["create"; "cluster"; "--name"; name; "--wait"; "60s"].

(** DeleteCluster deletes the kind cluster with the given name. *)
Definition DeleteCluster (name : string) : Sh (option error) :=
  sh_Run env "kind" ["delete"; "cluster"; "--name"; name].

(** ExportKubeconfig exports the kubeconfig for the given cluster. *)
Definition ExportKubeconfig (name : string) : Sh (option error) :=
  sh_Run env "kind" ["export"; "kubeconfig"; "--name"; name].

(** GetClusterInfo gets cluster info for the given cluster. *)
Definition GetClusterInfo (name : string) : Sh (string * option error) :=
  sh_Output env "kubectl" ["cluster-info"; "--context"; "kind-" ++ name].

(** GetNodeStatus runs kubectl get nodes for the given cluster. *)
Definition GetNodeStatus (name : string) : Sh (option error) :=
  sh_Run env "kubectl" ["get"; "nodes"; "--context"; "kind-" ++ name].

(** EnsureHelmRepo adds a helm repository if it doesn't already exist. *)
Definition EnsureHelmRepo (name url : string) : Sh (option error) :=
  _ ← Printf ("📦 Ensuring helm repository '" ++ name ++ "' is available..." ++ nl)%string;
  sh_Run env "helm" ["repo"; "add"; name; url].

(** The arguments InstallHelmChart and UpgradeHelmChart assemble. *)
Definition chart_args (verb name chart namespace version : string)
    (values : list string) : list string :=
  let args := [verb; name; chart; "--namespace"; namespace] in
  let args := if negb (String.eqb version "") then (args ++ ["--version"; version])%list
              else args in
  (args ++ values)%list.

(** InstallHelmChart installs a Helm chart. *)
Definition InstallHelmChart (name chart namespace version : string)
    (values : list string) : Sh (option error) :=
  sh_Run env "helm" (chart_args "install" name chart namespace version values).

(** UpgradeHelmChart upgrades a Helm chart. *)
Definition UpgradeHelmChart (name chart namespace version : string)
    (values : list string) : Sh (option error) :=
  sh_Run env "helm" (chart_args "upgrade" name chart namespace version values).

(** UninstallHelmChart uninstalls a Helm chart. *)
Definition UninstallHelmChart (name namespace : string) : Sh (option error) :=
  sh_Run env "helm" ["uninstall"; name; "--namespace"; namespace].

(** GetHelmChartStatus gets the status of a Helm chart. *)
Definition GetHelmChartStatus (name namespace : string) : Sh (option error) :=
  sh_Run env "helm" ["status"; name; "--namespace"; namespace].

End Helpers.

(** ** The targets of the magefile *)

Definition clusterName : string := "kargo".
Definition certManagerVersion : string := "v1.18.2".
Definition certManagerNS : string := "cert-manager".
Definition argocdVersion : string := "7.4.0".
Definition argocdNS : string := "argocd".
Definition argocdRepoName : string := "argo".
Definition argocdRepoURL : string := "https://argoproj.github.io/argo-helm".

(** How a target ends: it returns, or a failed dependency stops the run
    with mage's fatal error (exit status and message). *)
Inductive outcome (A : Type) :=
| Returned (a : A)
| Fatal (exit : Z) (msg : string).

Arguments Returned {A} a.
Arguments Fatal {A} exit msg.

(** The state of one mage process: what happened so far, and whether the
    dependency Kind.Up was run already by [mg.Deps], with its result. *)
Record MageState := mkMage {
  events : list event;
  KindUp_once : option (option error)
}.

Definition Mage (A : Type) : Type := MageState -> outcome A * MageState.

#[global] Instance Mage_ret : MRet Mage := fun A x s => (Returned x, s).
#[global] Instance Mage_bind : MBind Mage :=
  fun A B f m s =>
    match m s with
    | (Returned x, s') => f x s'
    | (Fatal exit msg, s') => (Fatal exit msg, s')
    end.

(** A step that cannot stop the run. *)
Definition lift {A : Type} (m : Sh A) : Mage A := fun s =>
  let '(x, t) := m (events s) in (Returned x, mkMage t (KindUp_once s)).

Section Targets.

Variable env : Env.

(** The message of an error value, [err.Error()]. *)
Variable Error : error -> string.

(** [os.Getenv]. *)
Variable Getenv : string -> string.

(** Kind:Up creates or connects to a kind cluster named 'kargo'. *)
Definition Kind_Up : Sh (option error) :=
  _ ← Printf ("🚀 Setting up kind cluster..." ++ nl)%string;
  '(exists_, err) ← ClusterExists env clusterName;
  match err with
  | Some err => mret (Some (wrapError "failed to check cluster existence: " err))
  | None =>
      failed ← (if exists_ : bool then
                  _ ← Printf ("✅ Cluster '" ++ clusterName ++ "' already exists" ++ nl)%string;
                  mret None
                else
                  _ ← Printf ("📦 Creating kind cluster '" ++ clusterName ++ "'..." ++ nl)%string;
                  err ← CreateCluster env clusterName;
                  match err with
                  | Some err => mret (Some (wrapError "failed to create cluster: " err))
                  | None =>
                      _ ← Printf ("✅ Cluster '" ++ clusterName ++ "' created successfully" ++ nl)%string;
                      mret None
                  end);
      match failed with
      | Some err => mret (Some err)
      | None =>
          _ ← Printf ("🔧 Exporting kubeconfig for cluster '" ++ clusterName ++ "'..." ++ nl)%string;
          err ← ExportKubeconfig env clusterName;
          match err with
          | Some err => mret (Some (wrapError "failed to export kubeconfig: " err))
          | None =>
              _ ← Printf ("✅ Kind cluster '" ++ clusterName ++ "' is ready!" ++ nl)%string;
              mret None
          end
      end
  end.


(** Kind:Down tears down the kind cluster. *)
Definition Kind_Down : Sh (option error) :=
  _ ← Printf ("🔥 Tearing down kind cluster..." ++ nl)%string;
  '(exists_, err) ← ClusterExists env clusterName;
  match err with
  | Some err => mret (Some (wrapError "failed to check cluster existence: " err))
  | None =>
      if negb exists_ then
        _ ← Printf ("ℹ️  Cluster '" ++ clusterName ++ "' does not exist" ++ nl)%string;
        mret None
      else
        _ ← Printf ("🗑️  Deleting kind cluster '" ++ clusterName ++ "'..." ++ nl)%string;
        err ← DeleteCluster env clusterName;
        match err with
        | Some err => mret (Some (wrapError "failed to delete cluster: " err))
        | None =>
            _ ← Printf ("✅ Cluster '" ++ clusterName ++ "' deleted successfully" ++ nl)%string;
            mret None
        end
  end.


(** [mg.Deps(Kind.Up)]: the first time in a process it runs Kind.Up and
    remembers the result; every time it stops the run when that result
    is an error. *)
Definition Deps_Kind_Up : Mage unit := fun s =>
  let '(result, s') :=
    match KindUp_once s with
    | Some result => (result, s)
    | None =>
        let '(result, t) := Kind_Up (events s) in
        (result, mkMage t (Some result))
    end in
  match result with
  | Some err => (Fatal 1 (Error err), s')
  | None => (Returned tt, s')
  end.

(** CertManager:Up, after its dependency. *)
Definition CertManager_Up_steps : Sh (option error) :=
  _ ← Printf ("🔐 Setting up cert-manager..." ++ nl)%string;
  err ← sh_Run env "kubectl" ["create"; "namespace"; certManagerNS];
  _ ← match err with
      | Some _ => Printf ("ℹ️  Namespace '" ++ certManagerNS ++ "' might already exist" ++ nl)%string
      | None => mret tt
      end;
  '(exists_, err) ← ReleaseExists env "cert-manager" certManagerNS;
  match err with
  | Some err => mret (Some (wrapError "failed to check cert-manager installation: " err))
  | None =>
      if exists_ : bool then
        _ ← Printf ("🔄 cert-manager is already installed, upgrading to v" ++ certManagerVersion ++ "..." ++ nl)%string;
        err ← UpgradeHelmChart env "cert-manager"
                "oci://quay.io/jetstack/charts/cert-manager" certManagerNS
                certManagerVersion ["--set"; "crds.enabled=true"];
        match err with
        | Some err => mret (Some (wrapError "failed to upgrade cert-manager: " err))
        | None =>
            _ ← Printf ("✅ cert-manager upgraded to v" ++ certManagerVersion ++ " and is ready" ++ nl)%string;
            mret None
        end
      else
        _ ← Printf ("📦 Installing cert-manager v" ++ certManagerVersion ++ "..." ++ nl)%string;
        err ← InstallHelmChart env "cert-manager"
                "oci://quay.io/jetstack/charts/cert-manager" certManagerNS
                certManagerVersion ["--set"; "crds.enabled=true"];
        match err with
        | Some err => mret (Some (wrapError "failed to install cert-manager: " err))
        | None =>
            _ ← Printf ("✅ cert-manager v" ++ certManagerVersion ++ " is ready in namespace '" ++ certManagerNS ++ "'" ++ nl)%string;
            mret None
        end
  end.

(** CertManager:Up installs or upgrades cert-manager using Helm. *)
Definition CertManager_Up : Mage (option error) :=
  _ ← Deps_Kind_Up;
  lift CertManager_Up_steps.

(** CertManager:Down removes cert-manager and cleans up resources. *)
Definition CertManager_Down : Sh (option error) :=
  _ ← Printf ("🔥 Tearing down cert-manager..." ++ nl)%string;
  '(exists_, err) ← ReleaseExists env "cert-manager" certManagerNS;
  match err with
  | Some err => mret (Some (wrapError "failed to check cert-manager installation: " err))
  | None =>
      if negb exists_ then
        _ ← Printf ("ℹ️  cert-manager is not installed" ++ nl)%string;
        mret None
      else
        err ← UninstallHelmChart env "cert-manager" certManagerNS;
        match err with
        | Some err => mret (Some (wrapError "failed to uninstall cert-manager: " err))
        | None =>
            _ ← Printf ("🧹 Cleaning up cert-manager CRDs..." ++ nl)%string;
            _ ← sh_Run env "kubectl"
                  ["delete"; "crd";
                   "issuers.cert-manager.io";
                   "clusterissuers.cert-manager.io";
                   "certificates.cert-manager.io";
                   "certificaterequests.cert-manager.io";
                   "orders.acme.cert-manager.io";
                   "challenges.acme.cert-manager.io"];
            _ ← sh_Run env "kubectl"
                  ["delete"; "apiservice"; "v1beta1.webhook.cert-manager.io"];
            _ ← Printf ("✅ cert-manager torn down successfully" ++ nl)%string;
            mret None
        end
  end.

(** CertManager:UpClean removes and reinstalls cert-manager. *)
Definition CertManager_UpClean : Mage (option error) :=
  _ ← lift (Printf ("🧹 Clean setting up cert-manager..." ++ nl)%string);
  err ← lift CertManager_Down;
  match err with
  | Some err => mret (Some (wrapError "failed to uninstall existing cert-manager: " err))
  | None =>
      _ ← lift (Printf ("⏳ Waiting for cleanup to complete..." ++ nl)%string);
      _ ← lift (time_Sleep 5);
      err ← CertManager_Up;
      match err with
      | Some err => mret (Some (wrapError "failed to install cert-manager: " err))
      | None =>
          _ ← lift (Printf ("✅ cert-manager clean setup completed successfully" ++ nl)%string);
          mret None
      end
  end.


(** ArgoCD:Up, after its dependency. *)
Definition ArgoCD_Up_steps : Sh (option error) :=
  _ ← Printf ("🚀 Setting up ArgoCD..." ++ nl)%string;
  err ← EnsureHelmRepo env argocdRepoName argocdRepoURL;
  match err with
  | Some err => mret (Some (wrapError "failed to add ArgoCD Helm repository: " err))
  | None =>
      err ← sh_Run env "helm" ["repo"; "update"];
      match err with
      | Some err => mret (Some (wrapError "failed to update Helm repositories: " err))
      | None =>
          err ← sh_Run env "kubectl" ["create"; "namespace"; argocdNS];
          _ ← match err with
              | Some _ => Printf ("ℹ️  Namespace '" ++ argocdNS ++ "' might already exist" ++ nl)%string
              | None => mret tt
              end;
          '(exists_, err) ← ReleaseExists env "argo-cd" argocdNS;
          match err with
          | Some err => mret (Some (wrapError "failed to check ArgoCD installation: " err))
          | None =>
              if exists_ : bool then
                _ ← Printf ("🔄 ArgoCD is already installed, upgrading to v" ++ argocdVersion ++ "..." ++ nl)%string;
                err ← UpgradeHelmChart env "argo-cd" (argocdRepoName ++ "/argo-cd")
                        argocdNS argocdVersion [];
                match err with
                | Some err => mret (Some (wrapError "failed to upgrade ArgoCD: " err))
                | None =>
                    _ ← Printf ("✅ ArgoCD upgraded to v" ++ argocdVersion ++ " and is ready" ++ nl)%string;
                    mret None
                end
              else
                _ ← Printf ("📦 Installing ArgoCD v" ++ argocdVersion ++ "..." ++ nl)%string;
                err ← InstallHelmChart env "argo-cd" (argocdRepoName ++ "/argo-cd")
                        argocdNS argocdVersion [];
                match err with
                | Some err => mret (Some (wrapError "failed to install ArgoCD: " err))
                | None =>
                    _ ← Printf ("✅ ArgoCD v" ++ argocdVersion ++ " is ready in namespace '" ++ argocdNS ++ "'" ++ nl)%string;
                    mret None
                end
          end
      end
  end.

(** ArgoCD:Up installs or upgrades ArgoCD using Helm. *)
Definition ArgoCD_Up : Mage (option error) :=
  _ ← Deps_Kind_Up;
  lift ArgoCD_Up_steps.

(** ArgoCD:Down removes ArgoCD and cleans up resources. *)
Definition ArgoCD_Down : Sh (option error) :=
  _ ← Printf ("🔥 Tearing down ArgoCD..." ++ nl)%string;
  '(exists_, err) ← ReleaseExists env "argo-cd" argocdNS;
  match err with
  | Some err => mret (Some (wrapError "failed to check ArgoCD installation: " err))
  | None =>
      if negb exists_ then
        _ ← Printf ("ℹ️  ArgoCD is not installed" ++ nl)%string;
        mret None
      else
        err ← UninstallHelmChart env "argo-cd" argocdNS;
        match err with
        | Some err => mret (Some (wrapError "failed to uninstall ArgoCD: " err))
        | None =>
            _ ← Printf ("✅ ArgoCD torn down successfully" ++ nl)%string;
            mret None
        end
  end.

(** ArgoCD:UpClean removes and reinstalls ArgoCD. *)
Definition ArgoCD_UpClean : Mage (option error) :=
  _ ← lift (Printf ("🧹 Clean setting up ArgoCD..." ++ nl)%string);
  err ← lift ArgoCD_Down;
  match err with
  | Some err => mret (Some (wrapError "failed to uninstall existing ArgoCD: " err))
  | None =>
      _ ← lift (Printf ("⏳ Waiting for cleanup to complete..." ++ nl)%string);
      _ ← lift (time_Sleep 5);
      err ← ArgoCD_Up;
      match err with
      | Some err => mret (Some (wrapError "failed to install ArgoCD: " err))
      | None =>
          _ ← lift (Printf ("✅ ArgoCD clean setup completed successfully" ++ nl)%string);
          mret None
      end
  end.


End Targets.

(** *** The commands the targets run *)

Definition kind_get_clusters : event := Run "kind" ["get"; "clusters"].
Definition kind_create : event :=
  Run "kind" ["create"; "cluster"; "--name"; clusterName; "--wait"; "60s"].
Definition kind_export : event :=
  Run "kind" ["export"; "kubeconfig"; "--name"; clusterName].
Definition kubectl_create_namespace (namespace : string) : event :=
  Run "kubectl" ["create"; "namespace"; namespace].
Definition helm_status (name namespace : string) : event :=
  Run "helm" ["status"; name; "--namespace"; namespace].
Definition helm_uninstall (name namespace : string) : event :=
  Run "helm" ["uninstall"; name; "--namespace"; namespace].

(** [helm install] or [helm upgrade] of cert-manager and of ArgoCD, by
    whether the release is there already. *)
Definition helm_cert_manager (present : bool) : event :=
  Run "helm"
    (chart_args (if present then "upgrade" else "install") "cert-manager"
       "oci://quay.io/jetstack/charts/cert-manager" certManagerNS certManagerVersion
       ["--set"; "crds.enabled=true"]).


Definition kubectl_delete_crds : event :=
  Run "kubectl"
    ["delete"; "crd";
     "issuers.cert-manager.io";
     "clusterissuers.cert-manager.io";
     "certificates.cert-manager.io";
     "certificaterequests.cert-manager.io";
     "orders.acme.cert-manager.io";
     "challenges.acme.cert-manager.io"].

Definition kubectl_delete_apiservice : event :=
  Run "kubectl" ["delete"; "apiservice"; "v1beta1.webhook.cert-manager.io"].


(** *** More fake environments *)

Module MoreFake.

(** A machine on which [kind] lists the clusters [out], and every other
    command succeeds and prints nothing. *)
Definition cluster (out : string) : Env :=
  fun _ cmd args =>
    mkResult None
      (if String.eqb cmd "kind" && bool_decide (args = ["get"; "clusters"])
       then out else "").

(** The same, except that [helm] always fails: no release is installed,
    and nothing can be installed. *)
Definition no_helm (out : string) : Env :=
  fun t cmd args =>
    if String.eqb cmd "helm"
    then mkResult (Some (errorString "helm: release: not found")) ""
    else cluster out t cmd args.

(** Error messages as they are, for the values the fakes produce. *)
Fixpoint message (err : error) : string :=
  match err with
  | errorString msg => msg
  | wrapError format err => format ++ message err
  | _ => "error"
  end.

End MoreFake.


(** ** The string functions on examples *)

Example TrimSpace_ex1 :
  TrimSpace (bytes [32; 9; 52; 50; 10; 194; 160]%nat) = "42".
Proof. reflexivity. Qed.

Example TrimSpace_ex2 : TrimSpace " 4 2 " = "4 2".
Proof. reflexivity. Qed.

Example Atoi_ex1 : Atoi "42" = inl 42 /\ Atoi "-7" = inl (-7) /\ Atoi "+0012" = inl 12.
Proof. repeat split; reflexivity. Qed.

Example parseInt_ex :
  parseInt "" = inr ErrSyntax /\ parseInt "-" = inr ErrSyntax
  /\ parseInt "4 2" = inr ErrSyntax /\ parseInt "12a" = inr ErrSyntax
  /\ parseInt "0x1f" = inr ErrSyntax /\ parseInt "1_000" = inr ErrSyntax
  /\ parseInt "9223372036854775807" = inl maxInt
  /\ parseInt "9223372036854775808" = inr ErrRange
  /\ parseInt "-9223372036854775808" = inl minInt.
Proof. repeat split; reflexivity. Qed.

Example Itoa_ex : Itoa 4711 = "4711" /\ Itoa 0 = "0" /\ Itoa (-3) = "-3".
Proof. repeat split; reflexivity. Qed.

Example SplitLines_ex :
  SplitLines ("kind" ++ bytes [10%nat] ++ "kargo" ++ bytes [10%nat])
  = ["kind"; "kargo"; ""].
Proof. reflexivity. Qed.

Example Contains_ex :
  Contains "pod-1  1/1  Running  0  5m" "Running" = true
  /\ Contains "pod-1  0/1  Pending  0  5m" "Running" = false
  /\ Contains "" "" = true.
Proof. repeat split; reflexivity. Qed.

(** ** Facts about the string functions *)

Section StringFacts.

Lemma strip_one_numeral c r :
  numeral_char c = true -> strip_one space_runes (String c r) = None.
Proof.
  destruct c as [[] [] [] [] [] [] [] []]; intros H; try discriminate H; reflexivity.
Qed.

Lemma strip_one_rev_numeral c r :
  numeral_char c = true -> strip_one (map revBytes space_runes) (String c r) = None.
Proof.
  destruct c as [[] [] [] [] [] [] [] []]; intros H; try discriminate H; reflexivity.
Qed.

Lemma trim_left_numeral runes :
  strip_one runes "" = None ->
  (forall c r, numeral_char c = true -> strip_one runes (String c r) = None) ->
  forall fuel s, numeral s = true -> trim_left runes fuel s = s.
Proof.
  intros He Hr [| fuel] s Hs; [done |]. simpl.
  destruct s as [| c r]; simpl in Hs.
  - by rewrite He.
  - apply andb_true_iff in Hs as [Hc _]. by rewrite Hr.
Qed.

Lemma revBytes_append_numeral s acc :
  numeral s = true -> numeral acc = true -> numeral (revBytes_append s acc) = true.
Proof.
  revert acc. induction s as [| c r IH]; intros acc Hs Ha; [done |].
  simpl in *. apply andb_true_iff in Hs as [Hc Hr]. apply IH; [done |].
  simpl. by rewrite Hc, Ha.
Qed.

Lemma revBytes_append_twice s a b :
  revBytes_append (revBytes_append s a) b = revBytes_append a (s ++ b).
Proof.
  revert a. induction s as [| c r IH]; intros a; [done |].
  simpl. by rewrite IH.
Qed.

Lemma append_empty_r (s : string) : s ++ "" = s.
Proof.
  induction s as [| c r IH]; [done |].
  change (String c (r ++ "") = String c r). by rewrite IH.
Qed.

Lemma revBytes_involutive s : revBytes (revBytes s) = s.
Proof. unfold revBytes. by rewrite revBytes_append_twice, append_empty_r. Qed.

(** White space is trimmed off a numeral nowhere. *)
Lemma TrimSpace_numeral s : numeral s = true -> TrimSpace s = s.
Proof.
  intros Hs. unfold TrimSpace, TrimLeftSpace, TrimRightSpace.
  rewrite (trim_left_numeral space_runes eq_refl strip_one_numeral) by done.
  rewrite (trim_left_numeral (map revBytes space_runes) eq_refl strip_one_rev_numeral).
  - apply revBytes_involutive.
  - by apply revBytes_append_numeral.
Qed.

Lemma numeral_string_of_uint d : numeral (NilEmpty.string_of_uint d) = true.
Proof. induction d; simpl; done. Qed.

Lemma numeral_Itoa n : numeral (Itoa n) = true.
Proof.
  unfold Itoa, NilZero.string_of_int, NilZero.string_of_uint.
  destruct (Z.to_int n) as [d | d]; destruct d; try done;
    simpl; apply numeral_string_of_uint.
Qed.

(** A numeral without sign parses to the number it denotes, checked
    against the range of [int]. *)
Lemma parseInt_digits d :
  d <> Decimal.Nil ->
  parseInt (NilEmpty.string_of_uint d)
  = let v := Z.of_N (N.of_uint d) in
    if (minInt <=? v) && (v <=? maxInt) then inl v else inr ErrRange.
Proof.
  intros Hd. pose proof (NilEmpty.usu d) as Hu.
  destruct d; try done; simpl NilEmpty.string_of_uint in *;
    unfold parseInt; cbn [Ascii.eqb Bool.eqb orb]; cbv iota; rewrite Hu; done.
Qed.

Lemma parseInt_minus_digits d :
  d <> Decimal.Nil ->
  parseInt (String "-" (NilEmpty.string_of_uint d))
  = let v := - Z.of_N (N.of_uint d) in
    if (minInt <=? v) && (v <=? maxInt) then inl v else inr ErrRange.
Proof.
  intros Hd. pose proof (NilEmpty.usu d) as Hu.
  unfold parseInt. cbn [Ascii.eqb Bool.eqb orb]. cbv iota.
  destruct d; try done; simpl NilEmpty.string_of_uint in *; rewrite Hu; done.
Qed.

Lemma parseInt_Itoa n :
  parseInt (Itoa n)
  = if (minInt <=? n) && (n <=? maxInt) then inl n else inr ErrRange.
Proof.
  unfold Itoa. destruct n as [| p | p]; [done | |].
  - unfold Z.to_int, NilZero.string_of_int, NilZero.string_of_uint.
    pose proof (DecimalPos.Unsigned.to_uint_nonnil p) as Hn.
    pose proof (DecimalPos.Unsigned.of_to p) as Hp.
    destruct (Pos.to_uint p) eqn:E; try done;
      rewrite <- E in *; rewrite parseInt_digits by done;
      unfold N.of_uint; rewrite Hp; done.
  - unfold Z.to_int, NilZero.string_of_int, NilZero.string_of_uint.
    pose proof (DecimalPos.Unsigned.to_uint_nonnil p) as Hn.
    pose proof (DecimalPos.Unsigned.of_to p) as Hp.
    destruct (Pos.to_uint p) eqn:E; try done;
      rewrite <- E in *; rewrite parseInt_minus_digits by done;
      unfold N.of_uint; rewrite Hp; done.
Qed.

(** What [Sprintf("%d")] writes, [Atoi] after [TrimSpace] reads back. *)
Lemma Atoi_TrimSpace_Itoa n :
  minInt <= n <= maxInt -> Atoi (TrimSpace (Itoa n)) = inl n.
Proof.
  intros [Hlo Hhi]. rewrite TrimSpace_numeral by apply numeral_Itoa.
  unfold Atoi. rewrite parseInt_Itoa.
  apply Z.leb_le in Hlo, Hhi. by rewrite Hlo, Hhi.
Qed.

Lemma Atoi_TrimSpace_Itoa_inv n m : Atoi (TrimSpace (Itoa n)) = inl m -> m = n.
Proof.
  rewrite TrimSpace_numeral by apply numeral_Itoa.
  unfold Atoi. rewrite parseInt_Itoa.
  destruct ((minInt <=? n) && (n <=? maxInt)); congruence.
Qed.

(** The fuel of the trimming loops is enough: every round removes at least
    one byte, so what is left starts with no white space, and ends with
    none. *)
Lemma prefix_dropBytes r s :
  String.prefix r s = true ->
  (String.length (dropBytes (String.length r) s) + String.length r
   = String.length s)%nat.
Proof.
  revert s. induction r as [| a r IH]; intros s H.
  - cbn. lia.
  - destruct s as [| b s]; [done |]. cbn in H.
    destruct (ascii_dec a b); [| done]. cbn. specialize (IH s H). lia.
Qed.

Lemma strip_one_shorter runes s s' :
  Forall (fun r => r <> EmptyString) runes ->
  strip_one runes s = Some s' -> (String.length s' < String.length s)%nat.
Proof.
  induction 1 as [| r rs Hr _ IH]; [done |]. cbn.
  destruct (String.prefix r s) eqn:E; [| done].
  intros [= <-]. apply prefix_dropBytes in E.
  destruct r; [done |]. cbn in *. lia.
Qed.

Lemma strip_one_empty runes :
  Forall (fun r => r <> EmptyString) runes -> strip_one runes "" = None.
Proof. induction 1 as [| r rs Hr _ IH]; [done |]. cbn. by destruct r. Qed.

Lemma trim_left_complete runes :
  Forall (fun r => r <> EmptyString) runes ->
  forall fuel s, (String.length s <= fuel)%nat ->
    strip_one runes (trim_left runes fuel s) = None.
Proof.
  intros Hr. induction fuel as [| fuel IH]; intros s Hlen.
  - destruct s; [| cbn in Hlen; lia]. by apply strip_one_empty.
  - cbn. destruct (strip_one runes s) as [s'|] eqn:E; [| done].
    apply IH. pose proof (strip_one_shorter _ _ _ Hr E). lia.
Qed.

Lemma length_revBytes_append s acc :
  String.length (revBytes_append s acc) = (String.length s + String.length acc)%nat.
Proof.
  revert acc. induction s as [| c r IH]; intros acc; [done |].
  cbn. rewrite IH. cbn. lia.
Qed.

Lemma TrimLeftSpace_complete s : strip_one space_runes (TrimLeftSpace s) = None.
Proof.
  apply trim_left_complete; [| done].
  unfold space_runes. repeat (constructor; [discriminate |]). constructor.
Qed.

Lemma TrimRightSpace_complete s :
  strip_one (map revBytes space_runes) (revBytes (TrimRightSpace s)) = None.
Proof.
  unfold TrimRightSpace. rewrite revBytes_involutive.
  apply trim_left_complete.
  - unfold space_runes. repeat (constructor; [discriminate |]). constructor.
  - unfold revBytes. rewrite length_revBytes_append. cbn. lia.
Qed.

End StringFacts.

(** ** Facts about the operating-system model *)

Section OSFacts.

Implicit Types (w : World) (p : positive) (ps : gmap positive proc).

Lemma addressed_pos p q pr : addressed (Z.pos p) q pr = true <-> q = p.
Proof.
  unfold addressed. change (0 <? Z.pos p) with true. cbv iota.
  rewrite Z.eqb_eq. split; [congruence | intros ->; done].
Qed.

Lemma recipients_pos_lookup p ps q :
  recipients (Z.pos p) ps !! q = if decide (q = p) then ps !! p else None.
Proof.
  unfold recipients. destruct (decide (q = p)) as [-> | Hne].
  - destruct (ps !! p) as [pr|] eqn:E.
    + apply map_lookup_filter_Some. split; [done | by apply addressed_pos].
    + apply map_lookup_filter_None. by left.
  - apply map_lookup_filter_None. right. intros pr _ H.
    by apply addressed_pos in H.
Qed.

Lemma recipients_pos_empty p ps : recipients (Z.pos p) ps = ∅ <-> ps !! p = None.
Proof.
  rewrite map_empty. split.
  - intros H. specialize (H p). rewrite recipients_pos_lookup in H.
    by destruct (decide (p = p)).
  - intros H q. rewrite recipients_pos_lookup. by destruct (decide (q = p)).
Qed.

Lemma deliverable_pos_lookup p ps q :
  deliverable (Z.pos p) ps !! q
  = if decide (q = p)
    then match ps !! p with
         | Some pr => if owned pr then Some pr else None
         | None => None
         end
    else None.
Proof.
  unfold deliverable. rewrite map_lookup_filter, recipients_pos_lookup.
  destruct (decide (q = p)) as [-> | Hne]; [| done].
  destruct (ps !! p) as [pr|]; [| done]. simpl.
  destruct (owned pr) eqn:E; done.
Qed.

Lemma deliverable_pos_empty p ps :
  deliverable (Z.pos p) ps = ∅ <-> forall pr, ps !! p = Some pr -> owned pr = false.
Proof.
  rewrite map_empty. split.
  - intros H pr Hp. specialize (H p). rewrite deliverable_pos_lookup, Hp in H.
    destruct (decide (p = p)); [| done]. by destruct (owned pr).
  - intros H q. rewrite deliverable_pos_lookup.
    destruct (decide (q = p)); [| done].
    destruct (ps !! p) as [pr|] eqn:E; [| done]. by rewrite (H pr).
Qed.

(** Probing never changes the world. *)
Lemma Kill_Signal0_world target w : (Kill target Signal0 w).2 = w.
Proof. unfold Kill. repeat case_decide; done. Qed.

Lemma Process_Signal0_world pid w : (Process_Signal pid Signal0 w).2 = w.
Proof.
  unfold Process_Signal. repeat case_match; try done.
  unfold mbind, M_bind. pose proof (Kill_Signal0_world pid w) as Hk.
  destruct (Kill pid Signal0 w) as [e w']. simpl in *. by subst.
Qed.

(** The probe of a positive process id succeeds exactly on a process that
    is alive and may be signalled. *)
Lemma Process_Signal0_pos p w :
  (Process_Signal (Z.pos p) Signal0 w).1 = None
  <-> exists pr, procs w !! p = Some pr /\ owned pr = true.
Proof.
  unfold Process_Signal. simpl. unfold mbind, M_bind, Kill.
  destruct (decide (recipients (Z.pos p) (procs w) = ∅)) as [He | Hne]; simpl.
  - apply recipients_pos_empty in He. split; [done |]. intros (pr & H & _). congruence.
  - destruct (decide (deliverable (Z.pos p) (procs w) = ∅)) as [Hd | Hnd]; simpl.
    + split; [done |]. intros (pr & H & Ho).
      rewrite deliverable_pos_empty in Hd. rewrite (Hd pr H) in Ho. done.
    + split; [| done]. intros _.
      destruct (procs w !! p) as [pr|] eqn:E.
      * exists pr. split; [done |]. destruct (owned pr) eqn:Ho; [done |].
        exfalso. apply Hnd, deliverable_pos_empty. intros pr' ?. congruence.
      * exfalso. by apply Hne, recipients_pos_empty.
Qed.

End OSFacts.

(** ** The status check *)

Section PortForwardFacts.

Variable DataHome : string.

Implicit Types (w : World) (service namespace : string) (pid : Z).

(** Every path through IsPortForwardRunning, by what is at the PID path. *)
Lemma check_cases service namespace w :
  let pidFile := PortForwardPIDFile DataHome service namespace in
  IsPortForwardRunning DataHome service namespace w =
  match files w !! pidFile with
  | None => ((false, 0, None), w)
  | Some Dir =>
      ((false, 0, Some (wrapError "failed to read PID file: "
                          (PathError "read" pidFile EISDIR))), w)
  | Some (File _ false _) =>
      ((false, 0, Some (wrapError "failed to read PID file: "
                          (PathError "open" pidFile EACCES))), w)
  | Some (File data true _) =>
      match Atoi (TrimSpace data) with
      | inr e => ((false, 0, Some (wrapError "failed to parse PID: " e)), w)
      | inl pid =>
          match (Process_Signal pid Signal0 w).1 with
          | None => ((true, pid, None), w)
          | Some _ => ((false, 0, None), unlinked pidFile w)
          end
      end
  end.
Proof.
  intros pidFile. unfold IsPortForwardRunning. fold pidFile.
  unfold mbind, M_bind, Stat, ReadFile.
  destruct (files w !! pidFile) as [[| data [|] wr] |] eqn:E; simpl; try done.
  - rewrite E. done.
  - rewrite E. destruct (Atoi (TrimSpace data)) as [pid | e]; [| done].
    simpl. pose proof (Process_Signal0_world pid w) as Hw.
    destruct (Process_Signal pid Signal0 w) as [[e|] w']; simpl in *; subst w'.
    + unfold Remove. rewrite E. done.
    + done.
  - rewrite E. done.
Qed.

Lemma check_absent service namespace w :
  no_pid_file DataHome w service namespace ->
  IsPortForwardRunning DataHome service namespace w = ((false, 0, None), w).
Proof. intros H. rewrite check_cases. unfold no_pid_file in H. by rewrite H. Qed.

Lemma records_fun service namespace w pid pid' :
  records DataHome w service namespace pid ->
  records DataHome w service namespace pid' -> pid = pid'.
Proof. intros (d & wr & H1 & H2) (d' & wr' & H1' & H2'). congruence. Qed.

Lemma alive_probe w p :
  alive w (Z.pos p) <-> (Process_Signal (Z.pos p) Signal0 w).1 = None.
Proof.
  rewrite Process_Signal0_pos. unfold alive. split.
  - intros (q & pr & Hq & H1 & H2). injection Hq as <-. eauto.
  - intros (pr & H1 & H2). eauto.
Qed.

Lemma alive_pos w pid : alive w pid -> 0 < pid.
Proof. intros (p & pr & -> & _). lia. Qed.

Lemma dead_not_alive w pid : dead w pid -> ~ alive w pid.
Proof. intros Hd (p & pr & Hp & H1 & _). rewrite (Hd p Hp) in H1. done. Qed.

(** A running session is reported with its process id and nothing changes. *)
Lemma check_running service namespace w pid :
  session_running DataHome w service namespace pid ->
  IsPortForwardRunning DataHome service namespace w = ((true, pid, None), w).
Proof.
  intros [(data & wr & Hf & Hp) Ha]. rewrite check_cases. simpl.
  rewrite Hf, Hp. destruct Ha as (p & pr & -> & H1 & H2).
  assert (alive w (Z.pos p)) as Ha by (exists p, pr; done).
  apply alive_probe in Ha. by rewrite Ha.
Qed.

(** A PID file that records a positive process id that does not answer
    the probe is unlinked, and the answer is "not running". *)
Lemma check_unanswered service namespace w pid :
  records DataHome w service namespace pid -> 0 < pid -> ~ alive w pid ->
  IsPortForwardRunning DataHome service namespace w
  = ((false, 0, None), unlinked (PortForwardPIDFile DataHome service namespace) w).
Proof.
  intros (data & wr & Hf & Hp) Hpos Hna. rewrite check_cases. simpl.
  rewrite Hf, Hp. destruct pid as [| p | p]; try lia.
  destruct (Process_Signal (Z.pos p) Signal0 w).1 eqn:E; [done |].
  exfalso. apply Hna. by apply alive_probe.
Qed.

(** After a check the PID file of the pair is never stale. *)
Lemma check_not_stale service namespace w :
  ~ stale DataHome (IsPortForwardRunning DataHome service namespace w).2 service namespace.
Proof.
  rewrite check_cases. simpl. intros (pid & Hpos & (d & wr & Hf & Hp) & Hd).
  destruct (files w !! PortForwardPIDFile DataHome service namespace)
    as [[| data [|] wr0] |] eqn:E; simpl in *; try congruence.
  destruct (Atoi (TrimSpace data)) as [pid0 | e] eqn:EA; simpl in *.
  - destruct (Process_Signal pid0 Signal0 w).1 eqn:ES; simpl in *.
    + by rewrite lookup_delete_eq in Hf.
    + assert (pid0 = pid) as -> by congruence.
      destruct pid as [| p | p]; try lia.
      apply alive_probe in ES. by apply dead_not_alive in Hd.
  - congruence.
Qed.


(** C3. A PID file that records a process that is no longer alive makes
    IsPortForwardRunning answer (false, 0) without an error and delete the
    file; a second call in a row answers the same and changes nothing; and
    after any call at all, the PID file of the pair is not stale. *)
Theorem stale_pid_file_self_heals service namespace w :
  stale DataHome w service namespace ->
  let pidFile := PortForwardPIDFile DataHome service namespace in
  let w' := unlinked pidFile w in
  IsPortForwardRunning DataHome service namespace w = ((false, 0, None), w')
  /\ no_pid_file DataHome w' service namespace
  /\ (forall path, path <> pidFile -> files w' !! path = files w !! path)
  /\ IsPortForwardRunning DataHome service namespace w' = ((false, 0, None), w')
  /\ (forall w0, ~ stale DataHome
                   (IsPortForwardRunning DataHome service namespace w0).2
                   service namespace).
Proof.
  intros (pid & Hpos & Hrec & Hdead) pidFile w'.
  assert (no_pid_file DataHome w' service namespace) as Hgone.
  { unfold no_pid_file, w', unlinked. simpl. apply lookup_delete_eq. }
  split; [| split; [done | split; [| split]]].
  - apply (check_unanswered _ _ _ pid); auto using dead_not_alive.
  - intros path Hne. unfold w', unlinked. simpl. by apply lookup_delete_ne.
  - by apply check_absent.
  - intros w0. apply check_not_stale.
Qed.

(** C7. A PID file whose contents do not parse as a decimal integer makes
    IsPortForwardRunning return (false, 0) with an error, which is the parse
    error whenever the file can be read; a missing PID file gives (false, 0)
    with no error. *)
Theorem unparsable_pid_file_is_an_error service namespace w data r wr e :
  files w !! PortForwardPIDFile DataHome service namespace = Some (File data r wr) ->
  Atoi (TrimSpace data) = inr e ->
  exists err,
    IsPortForwardRunning DataHome service namespace w = ((false, 0, Some err), w)
    /\ (r = true -> err = wrapError "failed to parse PID: " e)
    /\ (forall w0, no_pid_file DataHome w0 service namespace ->
          IsPortForwardRunning DataHome service namespace w0 = ((false, 0, None), w0))
    /\ (false, 0, Some err) <> (false, 0, @None error).
Proof.
  intros Hf Hp. pose proof (check_cases service namespace w) as Hc.
  simpl in Hc. rewrite Hf in Hc. destruct r.
  - rewrite Hp in Hc. eexists. split; [exact Hc |].
    split; [done | split; [| done]]. intros w0. apply check_absent.
  - eexists. split; [exact Hc |].
    split; [done | split; [| done]]. intros w0. apply check_absent.
Qed.

(** C9. When IsPortForwardRunning fails, it is because the PID file could
    not be read or parsed, and nothing in the world changed, the PID file
    included: any number of further calls fail with the same error. *)
Theorem failed_check_changes_nothing service namespace w running pid e w' :
  IsPortForwardRunning DataHome service namespace w = ((running, pid, Some e), w') ->
  w' = w /\ running = false /\ pid = 0
  /\ (exists cause,
        e = wrapError "failed to read PID file: " cause
        \/ e = wrapError "failed to parse PID: " cause)
  /\ is_Some (files w' !! PortForwardPIDFile DataHome service namespace)
  /\ forall n : nat,
       let wn := Nat.iter n
                   (fun v => (IsPortForwardRunning DataHome service namespace v).2) w in
       wn = w
       /\ IsPortForwardRunning DataHome service namespace wn = ((false, 0, Some e), w).
Proof.
  intros H. pose proof (check_cases service namespace w) as Hc. simpl in Hc.
  assert (w' = w /\ running = false /\ pid = 0
          /\ (exists cause,
                e = wrapError "failed to read PID file: " cause
                \/ e = wrapError "failed to parse PID: " cause)
          /\ is_Some (files w !! PortForwardPIDFile DataHome service namespace))
    as (-> & -> & -> & Hcause & Hsome).
  { rewrite H in Hc.
    destruct (files w !! PortForwardPIDFile DataHome service namespace)
      as [[| data [|] wr] |]; try (injection Hc as -> -> -> ->; eauto 10); try done.
    destruct (Atoi (TrimSpace data)) as [pid0 | err].
    - destruct (Process_Signal pid0 Signal0 w).1; done.
    - injection Hc as -> -> -> ->. eauto 10. }
  repeat split; try done.
  - induction n as [| n IH]; [done |]. simpl. simpl in IH. rewrite IH, H. done.
  - assert (Nat.iter n
              (fun v => (IsPortForwardRunning DataHome service namespace v).2) w = w)
      as ->; [| done].
    induction n as [| n IH]; [done |]. simpl. rewrite IH, H. done.
Qed.


(** *** Stopping *)

Lemma Kill_files target sig w : files (Kill target sig w).2 = files w.
Proof. unfold Kill. repeat case_decide; try done. by destruct sig. Qed.

Lemma Kill_failure_world target sig w e :
  (Kill target sig w).1 = Some e -> (Kill target sig w).2 = w.
Proof. unfold Kill. repeat case_decide; done. Qed.

(** StopPortForward, by the answer of the status check. *)
Lemma stop_unfold service namespace w :
  StopPortForward DataHome service namespace w =
  match IsPortForwardRunning DataHome service namespace w with
  | ((_, _, Some err), w1) =>
      (Some (wrapError "failed to check port forwarding status: " err), w1)
  | ((false, _, None), w1) =>
      (Some (errorString "port forwarding is not running"), w1)
  | ((true, pid, None), w1) =>
      match Kill (- pid) SIGTERM w1 with
      | (Some err, w2) =>
          (Some (wrapError "failed to stop port forwarding process: " err), w2)
      | (None, w2) =>
          (None, (Remove (PortForwardPIDFile DataHome service namespace) w2).2)
      end
  end.
Proof.
  unfold StopPortForward, mbind, M_bind.
  destruct (IsPortForwardRunning DataHome service namespace w)
    as [[[running pid] [err|]] w1]; simpl; [by destruct running |].
  destruct running; [| done]. simpl.
  destruct (Kill (- pid) SIGTERM w1) as [[err|] w2]; [done |].
  by destruct (Remove _ w2).
Qed.

(** C1, as amended. On a running session StopPortForward sends the
    termination signal to the process group of the recorded process.  When
    the signal is delivered, the call succeeds and no PID file exists for
    the pair afterwards; when it is not, the call returns the wrapped error
    and leaves the world, the PID file included, as it was. *)
Theorem stop_running_session service namespace w pid :
  session_running DataHome w service namespace pid ->
  let pidFile := PortForwardPIDFile DataHome service namespace in
  match Kill (- pid) SIGTERM w with
  | (None, w1) =>
      StopPortForward DataHome service namespace w = (None, unlinked pidFile w1)
      /\ no_pid_file DataHome (unlinked pidFile w1) service namespace
      /\ forall path, path <> pidFile ->
           files (unlinked pidFile w1) !! path = files w !! path
  | (Some err, _) =>
      StopPortForward DataHome service namespace w
      = (Some (wrapError "failed to stop port forwarding process: " err), w)
      /\ ~ no_pid_file DataHome w service namespace
  end.
Proof.
  intros Hrun pidFile. subst pidFile.
  rewrite stop_unfold, (check_running _ _ _ _ Hrun).
  destruct Hrun as [(data & wr & Hf & _) _].
  pose proof (Kill_files (- pid) SIGTERM w) as Hfiles.
  pose proof (Kill_failure_world (- pid) SIGTERM w) as Hfail.
  destruct (Kill (- pid) SIGTERM w) as [[err|] w1]; cbn [fst snd] in *.
  - rewrite (Hfail err eq_refl). split; [done |].
    unfold no_pid_file. by rewrite Hf.
  - unfold Remove, no_pid_file, unlinked. rewrite !Hfiles, Hf. cbn [files snd].
    split; [done |]. split.
    + apply lookup_delete_eq.
    + intros path Hne. by rewrite lookup_delete_ne.
Qed.

(** C2, as amended. With no PID file for the pair, StopPortForward returns
    the "not running" error and changes nothing.  With a stale PID file it
    returns the same error, and the one change it makes is that the stale
    PID file is deleted. *)
Theorem stop_when_not_running service namespace w :
  let pidFile := PortForwardPIDFile DataHome service namespace in
  let not_running := errorString "port forwarding is not running" in
  (no_pid_file DataHome w service namespace ->
     StopPortForward DataHome service namespace w = (Some not_running, w))
  /\ (stale DataHome w service namespace ->
        StopPortForward DataHome service namespace w
        = (Some not_running, unlinked pidFile w)
        /\ procs (unlinked pidFile w) = procs w
        /\ files (unlinked pidFile w) = delete pidFile (files w)).
Proof.
  intros pidFile not_running. split.
  - intros H. by rewrite stop_unfold, check_absent.
  - intros (pid & Hpos & Hrec & Hdead).
    rewrite stop_unfold, (check_unanswered _ _ _ pid);
      auto using dead_not_alive.
Qed.

End PortForwardFacts.

(** *** The scenarios, evaluated *)

Import Scenario.

Lemma running_world_running :
  session_running home running_world "argocd-server" "argocd" 4711.
Proof.
  split.
  - exists "4711", true. split; reflexivity.
  - exists 4711%positive, (mkProc 4711 true
      ["kubectl"; "port-forward"; "svc/argocd-server"; "8080:443";
       "--namespace"; "argocd"]).
    repeat split; reflexivity.
Defined.

Lemma recycled_world_running :
  session_running home recycled_world "argocd-server" "argocd" 4711.
Proof.
  split.
  - exists "4711", true. split; reflexivity.
  - exists 4711%positive, (mkProc 4000 true ["node"; "server.js"]).
    repeat split; reflexivity.
Defined.

Lemma stale_world_stale : stale home stale_world "argocd-server" "argocd".
Proof.
  exists 4711. split; [reflexivity |]. split.
  - exists "4711", true. split; reflexivity.
  - intros p _. reflexivity.
Defined.

Lemma stop_running_session_witness :
  session_running home running_world "argocd-server" "argocd" 4711
  /\ StopPortForward home "argocd-server" "argocd" running_world
     = (None, unlinked pidFile stale_world)
  /\ no_pid_file home (unlinked pidFile stale_world) "argocd-server" "argocd".
Proof.
  split; [exact running_world_running |].
  pose proof (stop_running_session home _ _ _ _ running_world_running) as H.
  split; [exact (proj1 H) | exact (proj1 (proj2 H))].
Defined.

(** C1 as stated fails: here the session is running, the signal cannot be
    delivered because no process group carries the recorded id, and after
    StopPortForward has returned the PID file is still there. *)
Lemma stop_signal_failure_keeps_pid_file :
  session_running home recycled_world "argocd-server" "argocd" 4711
  /\ StopPortForward home "argocd-server" "argocd" recycled_world
     = (Some (wrapError "failed to stop port forwarding process: "
                (SyscallError ESRCH)), recycled_world)
  /\ ~ no_pid_file home
         (StopPortForward home "argocd-server" "argocd" recycled_world).2
         "argocd-server" "argocd".
Proof.
  split; [exact recycled_world_running |]. split; [vm_compute; reflexivity |].
  unfold no_pid_file. vm_compute. discriminate.
Qed.

Lemma stop_when_not_running_witness :
  (no_pid_file home fresh_world "argocd-server" "argocd"
   /\ StopPortForward home "argocd-server" "argocd" fresh_world
      = (Some (errorString "port forwarding is not running"), fresh_world))
  /\ (stale home stale_world "argocd-server" "argocd"
      /\ StopPortForward home "argocd-server" "argocd" stale_world
         = (Some (errorString "port forwarding is not running"),
            unlinked pidFile stale_world)).
Proof.
  pose proof (stop_when_not_running home "argocd-server" "argocd") as H.
  split.
  - assert (no_pid_file home fresh_world "argocd-server" "argocd") as Hn
      by reflexivity.
    split; [exact Hn | exact (proj1 (H fresh_world) Hn)].
  - split; [exact stale_world_stale |].
    exact (proj1 (proj2 (H stale_world) stale_world_stale)).
Defined.

(** C2 as stated fails: the session is not running (its PID file is
    stale), StopPortForward returns the "not running" error, and the file
    table is not what it was: the PID file has been deleted. *)
Lemma stop_on_stale_session_deletes_pid_file :
  stale home stale_world "argocd-server" "argocd"
  /\ (StopPortForward home "argocd-server" "argocd" stale_world).1
     = Some (errorString "port forwarding is not running")
  /\ files stale_world !! pidFile = Some (File "4711" true true)
  /\ files (StopPortForward home "argocd-server" "argocd" stale_world).2 !! pidFile
     = None.
Proof.
  split; [exact stale_world_stale |]. repeat split; vm_compute; reflexivity.
Qed.

(** *** Starting *)

Section StartFacts.

Variable DataHome : string.

Implicit Types (w : World) (service namespace : string).

Lemma pidFile_not_kargoDir service namespace :
  PortForwardPIDFile DataHome service namespace <> Join [DataHome; "kargo"].
Proof.
  unfold PortForwardPIDFile. cbn [Join].
  induction DataHome as [| c r IH].
  - discriminate.
  - intros H. apply IH. by injection H.
Qed.

Lemma MkdirAll_procs dir w : procs (MkdirAll dir w).2 = procs w.
Proof. unfold MkdirAll. by repeat case_match. Qed.

Lemma MkdirAll_executables dir w : executables (MkdirAll dir w).2 = executables w.
Proof. unfold MkdirAll. by repeat case_match. Qed.

Lemma MkdirAll_other dir w path :
  path <> dir -> files (MkdirAll dir w).2 !! path = files w !! path.
Proof.
  intros Hne. unfold MkdirAll. repeat case_match; try done.
  cbn [snd files]. by rewrite lookup_insert_ne.
Qed.

(** Killing a child that was just spawned gives back the process table
    from before the spawn. *)
Lemma spawn_then_kill fs ps ex p args :
  ps !! p = None ->
  Process_Kill (Z.pos p) (mkWorld fs (<[p := mkProc p true args]> ps) ex)
  = (None, mkWorld fs ps ex).
Proof.
  intros Hfresh. unfold Process_Kill, Process_Signal.
  change (Z.pos p =? -1) with false. change (Z.pos p =? 0) with false. cbv iota.
  unfold mbind, M_bind, Kill. cbn [procs].
  set (ps' := <[p := mkProc p true args]> ps).
  assert (deliverable (Z.pos p) ps' !! p = Some (mkProc p true args)) as Hd.
  { rewrite deliverable_pos_lookup. unfold ps'. rewrite lookup_insert_eq.
    by destruct (decide (p = p)). }
  destruct (decide (recipients (Z.pos p) ps' = ∅)) as [He | _].
  { apply recipients_pos_empty in He. unfold ps' in He.
    by rewrite lookup_insert_eq in He. }
  destruct (decide (deliverable (Z.pos p) ps' = ∅)) as [He | _].
  { rewrite He in Hd. by rewrite lookup_empty in Hd. }
  unfold deliver, mret, M_ret. cbn [files procs executables]. do 2 f_equal.
  apply map_eq. intros q. rewrite lookup_difference, deliverable_pos_lookup.
  unfold ps'. rewrite lookup_insert_eq. cbn [owned].
  destruct (decide (q = p)) as [-> | Hne]; [done |].
  by rewrite lookup_insert_ne.
Qed.

Lemma child_of_fresh w : procs w !! child_of w = None.
Proof. apply not_elem_of_dom. unfold child_of. apply is_fresh. Qed.

(** StartPortForward once the data directory is there and [kubectl] can be
    started: by whether the PID file can be written. *)
Lemma start_spawned service namespace localPort remotePort w :
  let kargoDir := Join [DataHome; "kargo"] in
  let pidFile := PortForwardPIDFile DataHome service namespace in
  let w1 := (MkdirAll kargoDir w).2 in
  let child := child_of w in
  (MkdirAll kargoDir w).1 = None ->
  "kubectl" ∈ executables w ->
  StartPortForward DataHome service namespace localPort remotePort w
  = match files w !! pidFile with
    | Some Dir =>
        ((0, Some (wrapError "failed to save PID file: "
                     (PathError "open" pidFile EISDIR))), w1)
    | Some (File _ _ false) =>
        ((0, Some (wrapError "failed to save PID file: "
                     (PathError "open" pidFile EACCES))), w1)
    | Some (File _ r true) =>
        ((Z.pos child, None),
         mkWorld (<[pidFile := File (Itoa (Z.pos child)) r true]> (files w1))
                 (<[child := mkProc child true
                               (forwarder service namespace localPort remotePort)]>
                    (procs w))
                 (executables w))
    | None =>
        ((Z.pos child, None),
         mkWorld (<[pidFile := File (Itoa (Z.pos child)) true true]> (files w1))
                 (<[child := mkProc child true
                               (forwarder service namespace localPort remotePort)]>
                    (procs w))
                 (executables w))
    end.
Proof.
  intros kargoDir pidFile w1 child Hdir Hexe.
  pose proof (MkdirAll_procs kargoDir w) as Hps.
  pose proof (MkdirAll_executables kargoDir w) as Hex.
  pose proof (MkdirAll_other kargoDir w pidFile
                (pidFile_not_kargoDir service namespace)) as Hfs.
  unfold StartPortForward. fold kargoDir pidFile.
  unfold mbind at 1. unfold M_bind at 1.
  destruct (MkdirAll kargoDir w) as [e w1'] eqn:Em.
  cbn [fst snd] in *. subst e. subst w1.
  unfold mbind at 1. unfold M_bind at 1. unfold Cmd_Start_Setsid.
  rewrite Hex. destruct (decide ("kubectl" ∈ executables w)) as [_ | Hn]; [| done].
  rewrite Hps. fold (child_of w). fold child.
  unfold mbind at 1. unfold M_bind at 1. unfold WriteFile at 1.
  cbn [files procs executables]. rewrite Hfs.
  destruct (files w !! pidFile) as [[| data r [|]] |] eqn:Ef.
  - unfold mbind, M_bind.
    rewrite spawn_then_kill by apply child_of_fresh.
    unfold mret, M_ret. by destruct w1'; simplify_eq/=.
  - done.
  - unfold mbind, M_bind.
    rewrite spawn_then_kill by apply child_of_fresh.
    unfold mret, M_ret. by destruct w1'; simplify_eq/=.
  - done.
Qed.


Lemma MkdirAll_lookup dir w path :
  files (MkdirAll dir w).2 !! path
  = if decide (path = dir)
    then match files w !! dir with
         | None => Some Dir
         | found => found
         end
    else files w !! path.
Proof.
  unfold MkdirAll. destruct (decide (path = dir)) as [-> | Hne].
  - repeat case_match; simplify_eq/=; try done. by rewrite lookup_insert_eq.
  - repeat case_match; simplify_eq/=; try done. by rewrite lookup_insert_ne.
Qed.

Lemma MkdirAll_result dir w :
  (MkdirAll dir w).1
  = match files w !! dir with
    | Some (File _ _ _) => Some (PathError "mkdir" dir ENOTDIR)
    | _ => None
    end.
Proof. unfold MkdirAll. by repeat case_match. Qed.

Lemma MkdirAll_failure_world dir w e :
  (MkdirAll dir w).1 = Some e -> (MkdirAll dir w).2 = w.
Proof. unfold MkdirAll. by repeat case_match. Qed.

(** StartPortForward when it gives up before the PID file is written. *)
Lemma start_no_directory service namespace localPort remotePort w e :
  (MkdirAll (Join [DataHome; "kargo"]) w).1 = Some e ->
  StartPortForward DataHome service namespace localPort remotePort w
  = ((0, Some (wrapError "failed to create kargo data directory: " e)), w).
Proof.
  intros H. pose proof (MkdirAll_failure_world _ _ _ H) as Hw.
  unfold StartPortForward, mbind, M_bind.
  destruct (MkdirAll (Join [DataHome; "kargo"]) w) as [e' w1].
  cbn [fst snd] in *. by subst.
Qed.

Lemma start_no_kubectl service namespace localPort remotePort w :
  (MkdirAll (Join [DataHome; "kargo"]) w).1 = None ->
  "kubectl" ∉ executables w ->
  StartPortForward DataHome service namespace localPort remotePort w
  = ((0, Some (wrapError "failed to start port-forward: " (ExecError "kubectl"))),
     (MkdirAll (Join [DataHome; "kargo"]) w).2).
Proof.
  intros H Hn. pose proof (MkdirAll_executables (Join [DataHome; "kargo"]) w) as Hex.
  unfold StartPortForward, mbind, M_bind.
  destruct (MkdirAll (Join [DataHome; "kargo"]) w) as [e' w1].
  cbn [fst snd] in *. subst e'. unfold Cmd_Start_Setsid. rewrite Hex.
  by destruct (decide ("kubectl" ∈ executables w)).
Qed.

(** C6. When the subprocess has been spawned and the write of the PID file
    then fails, StartPortForward returns the wrapped write error, and the
    child it spawned is killed: the process table is again what it was
    before the call, so no process is left that no PID file tracks.  When
    StartPortForward succeeds, the value it returns is the id of the child
    it spawned, and the PID file holds exactly that id in decimal. *)
Theorem start_write_failure_kills_child service namespace localPort remotePort w :
  let kargoDir := Join [DataHome; "kargo"] in
  let pidFile := PortForwardPIDFile DataHome service namespace in
  let args := tail (forwarder service namespace localPort remotePort) in
  let result := StartPortForward DataHome service namespace localPort remotePort w in
  (forall w1 child w2 err w3,
      MkdirAll kargoDir w = (None, w1) ->
      Cmd_Start_Setsid "kubectl" args w1 = (inl child, w2) ->
      WriteFile pidFile (Itoa (Z.pos child)) w2 = (Some err, w3) ->
      result = ((0, Some (wrapError "failed to save PID file: " err)),
                (Process_Kill (Z.pos child) w2).2)
      /\ is_Some (procs w2 !! child)
      /\ procs result.2 !! child = None
      /\ procs result.2 = procs w
      /\ files result.2 !! pidFile = files w !! pidFile)
  /\ (forall pid w',
        result = ((pid, None), w') ->
        exists child r wr,
          pid = Z.pos child
          /\ procs w !! child = None
          /\ procs w' !! child
             = Some (mkProc child true (forwarder service namespace localPort remotePort))
          /\ files w' !! pidFile = Some (File (Itoa pid) r wr)
          /\ (r = true -> pid <= maxInt ->
              session_running DataHome w' service namespace pid)).
Proof.
  intros kargoDir pidFile args result.
  pose proof (start_spawned service namespace localPort remotePort w) as Hs.
  pose proof (MkdirAll_procs kargoDir w) as Hps.
  pose proof (MkdirAll_executables kargoDir w) as Hex.
  pose proof (MkdirAll_other kargoDir w pidFile
                (pidFile_not_kargoDir service namespace)) as Hfs.
  cbv zeta in Hs. fold kargoDir pidFile result in Hs.
  split.
  - intros w1 child w2 err w3 Hm Hc Hw.
    rewrite Hm in Hs, Hps, Hex, Hfs. cbn [fst snd] in *.
    unfold Cmd_Start_Setsid in Hc. rewrite Hex in Hc.
    destruct (decide ("kubectl" ∈ executables w)) as [Hk | Hk]; [| done].
    specialize (Hs eq_refl Hk). rewrite Hps in Hc.
    injection Hc as <- <-. fold (child_of w) in *.
    rewrite spawn_then_kill by apply child_of_fresh. cbn [snd].
    unfold WriteFile in Hw. cbn [files] in Hw. rewrite Hfs in Hw.
    assert (result.2 = w1) as Hw1.
    { rewrite Hs. by destruct (files w !! pidFile) as [[| ? ? []] |]. }
    assert (mkWorld (files w1) (procs w) (executables w) = w1) as Heq.
    { destruct w1. cbn in *. by subst. }
    rewrite Hw1, Heq. repeat split.
    + rewrite Hs.
      destruct (files w !! pidFile) as [[| ? ? []] |]; by simplify_eq/=.
    + cbn [procs]. rewrite lookup_insert_eq. eauto.
    + rewrite Hps. apply child_of_fresh.
    + done.
    + done.
  - intros pid w' Hr.
    destruct (MkdirAll kargoDir w).1 as [e|] eqn:Em.
    { unfold result in Hr. by rewrite (start_no_directory _ _ _ _ _ e Em) in Hr. }
    destruct (decide ("kubectl" ∈ executables w)) as [Hk | Hk].
    2: { unfold result in Hr. by rewrite (start_no_kubectl _ _ _ _ _ Em Hk) in Hr. }
    specialize (Hs eq_refl Hk). rewrite Hr in Hs.
    assert (forall r wr,
              pid = Z.pos (child_of w) ->
              procs w' !! child_of w
              = Some (mkProc (child_of w) true
                        (forwarder service namespace localPort remotePort)) ->
              files w' !! pidFile = Some (File (Itoa pid) r wr) ->
              r = true -> pid <= maxInt ->
              session_running DataHome w' service namespace pid) as Hrun.
    { intros r wr -> Hp Hf -> Hle. split.
      - exists (Itoa (Z.pos (child_of w))), wr. split; [done |].
        apply Atoi_TrimSpace_Itoa. split; [| done]. unfold minInt. lia.
      - exists (child_of w), (mkProc (child_of w) true
                 (forwarder service namespace localPort remotePort)). done. }
    destruct (files w !! pidFile) as [[| data r [|]] |]; try done.
    + injection Hs as -> ->.
      assert (files
                (mkWorld (<[pidFile:=File (Itoa (Z.pos (child_of w))) r true]>
                            (files (MkdirAll kargoDir w).2))
                   (<[child_of w := mkProc (child_of w) true
                        (forwarder service namespace localPort remotePort)]> (procs w))
                   (executables w)) !! pidFile
              = Some (File (Itoa (Z.pos (child_of w))) r true)) as Hf
        by (cbn [files]; apply lookup_insert_eq).
      exists (child_of w), r, true.
      split; [done |]. split; [apply child_of_fresh |].
      split; [cbn [procs]; apply lookup_insert_eq |].
      split; [exact Hf |].
      apply (Hrun r true); [done | cbn [procs]; apply lookup_insert_eq | exact Hf].
    + injection Hs as -> ->.
      assert (files
                (mkWorld (<[pidFile:=File (Itoa (Z.pos (child_of w))) true true]>
                            (files (MkdirAll kargoDir w).2))
                   (<[child_of w := mkProc (child_of w) true
                        (forwarder service namespace localPort remotePort)]> (procs w))
                   (executables w)) !! pidFile
              = Some (File (Itoa (Z.pos (child_of w))) true true)) as Hf
        by (cbn [files]; apply lookup_insert_eq).
      exists (child_of w), true, true.
      split; [done |]. split; [apply child_of_fresh |].
      split; [cbn [procs]; apply lookup_insert_eq |].
      split; [exact Hf |].
      apply (Hrun true true); [done | cbn [procs]; apply lookup_insert_eq | exact Hf].
Qed.


(** C8. StartPortForward does not look at the PID file that is already
    there.  With a PID file in place, whatever it holds, the call succeeds,
    returns the id of the new child and overwrites the file with it; every
    process that was alive before, the one the file recorded included, is
    still alive, and the file no longer records it.  The outcome is the same
    for any other contents of the old file, and the same as with no PID
    file at all. *)
Theorem start_overwrites_existing_pid_file
    service namespace localPort remotePort w data r :
  let kargoDir := Join [DataHome; "kargo"] in
  let pidFile := PortForwardPIDFile DataHome service namespace in
  let start := StartPortForward DataHome service namespace localPort remotePort in
  files w !! pidFile = Some (File data r true) ->
  (MkdirAll kargoDir w).1 = None ->
  "kubectl" ∈ executables w ->
  (start w).1 = (Z.pos (child_of w), None)
  /\ files (start w).2 !! pidFile = Some (File (Itoa (Z.pos (child_of w))) r true)
  /\ (forall old,
        alive w old ->
        alive (start w).2 old
        /\ old <> Z.pos (child_of w)
        /\ ~ records DataHome (start w).2 service namespace old)
  /\ (forall data', start (with_file pidFile (File data' r true) w) = start w)
  /\ (r = true -> start (unlinked pidFile w) = start w).
Proof.
  intros kargoDir pidFile start Hf Hdir Hk.
  pose proof (pidFile_not_kargoDir service namespace) as Hne. fold pidFile kargoDir in Hne.
  pose proof (start_spawned service namespace localPort remotePort w) as Hs.
  cbv zeta in Hs. fold kargoDir pidFile in Hs. fold (start w) in Hs.
  specialize (Hs Hdir Hk). rewrite Hf in Hs.
  assert (forall w0 found,
            files w0 !! kargoDir = files w !! kargoDir ->
            procs w0 = procs w -> executables w0 = executables w ->
            files w0 !! pidFile = found ->
            (forall path, path <> pidFile -> files w0 !! path = files w !! path) ->
            match found with
            | Some (File _ r0 true) => r0 = r
            | None => r = true
            | _ => False
            end ->
            start w0 = start w) as Hsame.
  { intros w0 found Hd0 Hp0 He0 Hf0 Hother Hfound.
    pose proof (start_spawned service namespace localPort remotePort w0) as Hs0.
    cbv zeta in Hs0. fold kargoDir pidFile in Hs0. fold (start w0) in Hs0.
    rewrite MkdirAll_result, Hd0, <- MkdirAll_result, He0 in Hs0.
    specialize (Hs0 Hdir Hk). rewrite Hf0 in Hs0. unfold child_of in *.
    rewrite Hp0 in Hs0. rewrite Hs, Hs0.
    assert (forall nd,
              <[pidFile := nd]> (files (MkdirAll kargoDir w0).2)
              = <[pidFile := nd]> (files (MkdirAll kargoDir w).2)) as Hins.
    { intros nd. apply map_eq. intros path.
      destruct (decide (path = pidFile)) as [-> | Hp].
      - by rewrite !lookup_insert_eq.
      - rewrite !lookup_insert_ne by done. rewrite !MkdirAll_lookup, Hd0.
        case_decide; [done |]. by apply Hother. }
    destruct found as [[| d0 r0 [|]] |]; try done.
    - subst r0. by rewrite Hins.
    - subst r. by rewrite Hins. }
  split; [by rewrite Hs |].
  split; [rewrite Hs; apply lookup_insert_eq |]. split; [| split].
  - rewrite Hs. cbn [fst snd files procs].
    intros old (p & pr & -> & Hp & Ho).
    assert (p <> child_of w) as Hpc.
    { intros ->. by rewrite child_of_fresh in Hp. }
    split; [| split].
    + exists p, pr. split; [done |]. cbn [procs].
      by rewrite lookup_insert_ne.
    + congruence.
    + intros (d & wr & Hd & Hparse). cbn [files] in Hd.
      rewrite lookup_insert_eq in Hd. injection Hd as <- <-.
      apply Atoi_TrimSpace_Itoa_inv in Hparse. congruence.
  - intros data'. apply (Hsame _ (Some (File data' r true))); try done.
    + unfold with_file. cbn [files]. by rewrite lookup_insert_ne.
    + unfold with_file. cbn [files]. apply lookup_insert_eq.
    + intros path Hp. unfold with_file. cbn [files]. by rewrite lookup_insert_ne.
  - intros ->. apply (Hsame _ None); try done.
    + unfold unlinked. cbn [files]. by rewrite lookup_delete_ne.
    + unfold unlinked. cbn [files]. apply lookup_delete_eq.
    + intros path Hp. unfold unlinked. cbn [files]. by rewrite lookup_delete_ne.
Qed.

End StartFacts.

Lemma start_write_failure_kills_child_witness :
  MkdirAll (Join [home; "kargo"]) readonly_world = (None, readonly_world)
  /\ Cmd_Start_Setsid "kubectl" (tail (forwarder "argocd-server" "argocd" 8080 443))
       readonly_world = (inl 1%positive, readonly_spawned)
  /\ WriteFile pidFile (Itoa 1) readonly_spawned
     = (Some (PathError "open" pidFile EACCES), readonly_spawned)
  /\ StartPortForward home "argocd-server" "argocd" 8080 443 readonly_world
     = ((0, Some (wrapError "failed to save PID file: "
                    (PathError "open" pidFile EACCES))), readonly_world).
Proof.
  assert (MkdirAll (Join [home; "kargo"]) readonly_world = (None, readonly_world))
    as H1 by (vm_compute; reflexivity).
  assert (Cmd_Start_Setsid "kubectl"
            (tail (forwarder "argocd-server" "argocd" 8080 443)) readonly_world
          = (inl 1%positive, readonly_spawned)) as H2 by (vm_compute; reflexivity).
  assert (WriteFile pidFile (Itoa 1) readonly_spawned
          = (Some (PathError "open" pidFile EACCES), readonly_spawned)) as H3
    by (vm_compute; reflexivity).
  split; [exact H1 |]. split; [exact H2 |]. split; [exact H3 |].
  pose proof (proj1 (start_write_failure_kills_child home "argocd-server" "argocd"
                       8080 443 readonly_world) _ _ _ _ _ H1 H2 H3) as [H _].
  rewrite H. vm_compute. reflexivity.
Defined.

Lemma start_overwrites_existing_pid_file_witness :
  files running_world !! pidFile = Some (File "4711" true true)
  /\ (MkdirAll (Join [home; "kargo"]) running_world).1 = None
  /\ "kubectl" ∈ executables running_world
  /\ (StartPortForward home "argocd-server" "argocd" 8080 443 running_world).1
     = (4712, None)
  /\ alive (StartPortForward home "argocd-server" "argocd" 8080 443 running_world).2 4711
  /\ ~ records home
         (StartPortForward home "argocd-server" "argocd" 8080 443 running_world).2
         "argocd-server" "argocd" 4711.
Proof.
  assert (files running_world !! pidFile = Some (File "4711" true true)) as H1
    by reflexivity.
  assert ((MkdirAll (Join [home; "kargo"]) running_world).1 = None) as H2
    by reflexivity.
  assert ("kubectl" ∈ executables running_world) as H3
    by (vm_compute; reflexivity).
  pose proof (start_overwrites_existing_pid_file home "argocd-server" "argocd"
                8080 443 running_world "4711" true H1 H2 H3) as (Ha & _ & Hb & _).
  destruct (Hb 4711 (proj2 running_world_running)) as (Hc & _ & Hd).
  split; [exact H1 |]. split; [exact H2 |]. split; [exact H3 |].
  split; [exact Ha |]. split; [exact Hc | exact Hd].
Defined.

(** *** The scenarios of the status check, evaluated *)

Lemma stale_pid_file_self_heals_witness :
  stale home stale_world "argocd-server" "argocd"
  /\ IsPortForwardRunning home "argocd-server" "argocd" stale_world
     = ((false, 0, None), unlinked pidFile stale_world)
  /\ IsPortForwardRunning home "argocd-server" "argocd" (unlinked pidFile stale_world)
     = ((false, 0, None), unlinked pidFile stale_world).
Proof.
  split; [exact stale_world_stale |].
  pose proof (stale_pid_file_self_heals home _ _ _ stale_world_stale)
    as (H1 & _ & _ & H2 & _).
  split; [exact H1 | exact H2].
Defined.

Lemma unparsable_pid_file_is_an_error_witness :
  files garbled_world !! pidFile = Some (File "not-a-pid" true true)
  /\ Atoi (TrimSpace "not-a-pid") = inr (NumError "Atoi" "not-a-pid" ErrSyntax)
  /\ exists err,
       IsPortForwardRunning home "argocd-server" "argocd" garbled_world
       = ((false, 0, Some err), garbled_world)
       /\ err = wrapError "failed to parse PID: " (NumError "Atoi" "not-a-pid" ErrSyntax).
Proof.
  assert (files garbled_world !! pidFile = Some (File "not-a-pid" true true)) as H1
    by reflexivity.
  assert (Atoi (TrimSpace "not-a-pid") = inr (NumError "Atoi" "not-a-pid" ErrSyntax))
    as H2 by reflexivity.
  split; [exact H1 |]. split; [exact H2 |].
  destruct (unparsable_pid_file_is_an_error home "argocd-server" "argocd"
              garbled_world _ _ _ _ H1 H2) as (err & Hr & He & _).
  exists err. split; [exact Hr | exact (He eq_refl)].
Defined.

Lemma failed_check_changes_nothing_witness :
  IsPortForwardRunning home "argocd-server" "argocd" unreadable_world
  = ((false, 0,
      Some (wrapError "failed to read PID file: " (PathError "open" pidFile EACCES))),
     unreadable_world)
  /\ IsPortForwardRunning home "argocd-server" "argocd"
       (Nat.iter 3
          (fun v => (IsPortForwardRunning home "argocd-server" "argocd" v).2)
          unreadable_world)
     = ((false, 0,
         Some (wrapError "failed to read PID file: " (PathError "open" pidFile EACCES))),
        unreadable_world).
Proof.
  assert (IsPortForwardRunning home "argocd-server" "argocd" unreadable_world
          = ((false, 0,
              Some (wrapError "failed to read PID file: "
                      (PathError "open" pidFile EACCES))),
             unreadable_world)) as H by (vm_compute; reflexivity).
  split; [exact H |].
  destruct (failed_check_changes_nothing home _ _ _ _ _ _ _ H)
    as (_ & _ & _ & _ & _ & Hn).
  exact (proj2 (Hn 3%nat)).
Defined.

(** ** External commands: existence checks and readiness waits *)

Lemma append_cons c (r b : string) : String c r ++ b = String c (r ++ b).
Proof. reflexivity. Qed.

Lemma prefix_append (s b : string) : String.prefix s (s ++ b) = true.
Proof.
  induction s as [| c r IH]; [by destruct b |].
  rewrite append_cons. cbn [String.prefix]. by destruct (ascii_dec c c).
Qed.

Lemma Contains_unfold (s substr : string) :
  Contains s substr
  = if String.prefix substr s then true
    else match s with
         | EmptyString => false
         | String _ r => Contains r substr
         end.
Proof. by destruct s. Qed.

Lemma Contains_prefix (s b : string) : Contains (s ++ b) s = true.
Proof. by rewrite Contains_unfold, prefix_append. Qed.

(** A string contains what it was assembled from. *)
Lemma Contains_append (a s b : string) : Contains (a ++ s ++ b) s = true.
Proof.
  induction a as [| c r IH]; [exact (Contains_prefix s b) |].
  rewrite append_cons, Contains_unfold, IH. by case_match.
Qed.

Local Open Scope list_scope.

Lemma rounds_S cmd args k :
  rounds cmd args (S k) = [Run cmd args; Sleep 1] ++ rounds cmd args k.
Proof. reflexivity. Qed.

Lemma probes_rounds cmd args k : probes (rounds cmd args k) = replicate k (Run cmd args).
Proof. induction k as [| k IH]; [done |]. rewrite rounds_S. cbn. by f_equal. Qed.

Lemma sleeps_rounds cmd args k : sleeps (rounds cmd args k) = replicate k 1.
Proof. induction k as [| k IH]; [done |]. rewrite rounds_S. cbn. by f_equal. Qed.

(** The loop of a readiness wait: each round runs the probe and either
    finishes or sleeps a second. *)
Section Poll.

Context {R : Type}.
Variables (cmd : string) (args : list string).
Variable sat : list event -> bool.
Variable finish : list event.
Variable v : R.
Variable body : Z -> Sh (option R).
Variable rest : Sh R.

Hypothesis body_spec : forall i t,
  body i t = if sat t then (Some v, t ++ Run cmd args :: finish)
             else (None, t ++ [Run cmd args; Sleep 1]).

Lemma poll_exhausted n : forall i t,
  (forall k, (k < n)%nat -> sat (t ++ rounds cmd args k) = false) ->
  for_range i n body rest t = rest (t ++ rounds cmd args n).
Proof.
  induction n as [| n IH]; intros i t Hunsat.
  - cbn. by rewrite app_nil_r.
  - cbn [for_range]. unfold mbind, Sh_bind. rewrite body_spec.
    pose proof (Hunsat 0%nat ltac:(lia)) as H0. cbn in H0.
    rewrite app_nil_r in H0. rewrite H0.
    rewrite IH.
    + by rewrite rounds_S, app_assoc.
    + intros k Hk. rewrite <- app_assoc, <- rounds_S. apply Hunsat. lia.
Qed.

Lemma poll_satisfied n : forall i t k,
  (k < n)%nat ->
  (forall j, (j < k)%nat -> sat (t ++ rounds cmd args j) = false) ->
  sat (t ++ rounds cmd args k) = true ->
  for_range i n body rest t = (v, t ++ rounds cmd args k ++ Run cmd args :: finish).
Proof.
  induction n as [| n IH]; intros i t k Hk Hunsat Hsat; [lia |].
  cbn [for_range]. unfold mbind, Sh_bind. rewrite body_spec.
  destruct k as [| k].
  - cbn in Hsat. rewrite app_nil_r in Hsat. by rewrite Hsat.
  - pose proof (Hunsat 0%nat ltac:(lia)) as H0. cbn in H0.
    rewrite app_nil_r in H0. rewrite H0.
    rewrite (IH _ _ k).
    + by rewrite rounds_S, <- !app_assoc.
    + lia.
    + intros j Hj. rewrite <- app_assoc, <- rounds_S. apply Hunsat. lia.
    + by rewrite <- app_assoc, <- rounds_S.
Qed.

End Poll.

Section ShellFacts.

Variable env : Env.

Lemma namespace_round_spec namespace i t :
  namespace_round env namespace i t
  = if namespace_gone env namespace t
    then (Some None,
          t ++ Run "kubectl" (namespace_probe namespace)
               :: [Stdout ("✅ Namespace '" ++ namespace ++ "' has been deleted" ++ nl)])
    else (None, t ++ [Run "kubectl" (namespace_probe namespace); Sleep 1]).
Proof.
  unfold namespace_round, namespace_gone, mbind, Sh_bind, sh_Run, Printf, time_Sleep.
  fold (namespace_probe namespace).
  destruct (cmd_err (env t "kubectl" (namespace_probe namespace)));
    cbn; by rewrite <- app_assoc.
Qed.

Lemma rollouts_round_spec namespace i t :
  rollouts_round env namespace i t
  = if rollouts_ready env namespace t
    then (Some None,
          t ++ Run "kubectl" (rollouts_probe namespace)
               :: [Stdout ("✅ Argo Rollouts is ready" ++ nl)])
    else (None, t ++ [Run "kubectl" (rollouts_probe namespace); Sleep 1]).
Proof.
  unfold rollouts_round, rollouts_ready, mbind, Sh_bind, sh_Output, Printf, time_Sleep.
  fold (rollouts_probe namespace). cbv zeta.
  destruct (bool_decide _ && Contains _ _); cbn; by rewrite <- app_assoc.
Qed.

(** C4. A readiness wait whose condition never holds runs its probe 60
    times, sleeping one second after each, and returns a timeout error that
    names the namespace; a wait whose condition first holds at attempt
    [k + 1] returns success right there, after [k + 1] probes and [k]
    sleeps.  This is so for WaitForNamespaceDeleted and for
    WaitForArgoRolloutsReady. *)
Theorem readiness_wait_attempts namespace t :
  let nsq := rounds "kubectl" (namespace_probe namespace) in
  let pods := rounds "kubectl" (rollouts_probe namespace) in
  let t1 := (t ++ [namespace_banner namespace])%list in
  let t2 := (t ++ [rollouts_banner namespace])%list in
  ((forall k, (k < 60)%nat -> namespace_gone env namespace (t1 ++ nsq k) = false) ->
     WaitForNamespaceDeleted env namespace t
     = (Some (namespace_timeout namespace), (t1 ++ nsq 60%nat)%list))
  /\ (forall k, (k < 60)%nat ->
        (forall j, (j < k)%nat -> namespace_gone env namespace (t1 ++ nsq j) = false) ->
        namespace_gone env namespace (t1 ++ nsq k) = true ->
        WaitForNamespaceDeleted env namespace t
        = (None,
           (t1 ++ nsq k
               ++ [Run "kubectl" (namespace_probe namespace);
                   Stdout ("✅ Namespace '" ++ namespace ++ "' has been deleted" ++ nl)])%list))
  /\ ((forall k, (k < 60)%nat -> rollouts_ready env namespace (t2 ++ pods k) = false) ->
       WaitForArgoRolloutsReady env namespace t
       = (Some (rollouts_timeout namespace), (t2 ++ pods 60%nat)%list))
  /\ (forall k, (k < 60)%nat ->
        (forall j, (j < k)%nat -> rollouts_ready env namespace (t2 ++ pods j) = false) ->
        rollouts_ready env namespace (t2 ++ pods k) = true ->
        WaitForArgoRolloutsReady env namespace t
        = (None,
           (t2 ++ pods k
               ++ [Run "kubectl" (rollouts_probe namespace);
                   Stdout ("✅ Argo Rollouts is ready" ++ nl)])%list))
  /\ (forall cmd args k,
        probes (rounds cmd args k) = replicate k (Run cmd args)
        /\ sleeps (rounds cmd args k) = replicate k 1)
  /\ (exists msg, namespace_timeout namespace = errorString msg
                  /\ Contains msg namespace = true)
  /\ (exists msg, rollouts_timeout namespace = errorString msg
                  /\ Contains msg namespace = true).
Proof.
  intros nsq pods t1 t2.
  split; [| split; [| split; [| split; [| split; [| split]]]]].
  - intros H. unfold WaitForNamespaceDeleted, mbind at 1, Sh_bind at 1, Printf.
    fold (namespace_banner namespace). fold t1.
    by rewrite (poll_exhausted _ _ _ _ _ _ _ (namespace_round_spec namespace)).
  - intros k Hk Hunsat Hsat.
    unfold WaitForNamespaceDeleted, mbind at 1, Sh_bind at 1, Printf.
    fold (namespace_banner namespace). fold t1.
    by rewrite (poll_satisfied _ _ _ _ _ _ _ (namespace_round_spec namespace)
                  60 0 t1 k).
  - intros H. unfold WaitForArgoRolloutsReady, mbind at 1, Sh_bind at 1, Printf.
    fold (rollouts_banner namespace). fold t2.
    by rewrite (poll_exhausted _ _ _ _ _ _ _ (rollouts_round_spec namespace)).
  - intros k Hk Hunsat Hsat.
    unfold WaitForArgoRolloutsReady, mbind at 1, Sh_bind at 1, Printf.
    fold (rollouts_banner namespace). fold t2.
    by rewrite (poll_satisfied _ _ _ _ _ _ _ (rollouts_round_spec namespace)
                  60 0 t2 k).
  - intros cmd args k. split; [apply probes_rounds | apply sleeps_rounds].
  - eexists. split; [reflexivity |]. apply Contains_append.
  - eexists. split; [reflexivity |]. apply Contains_append.
Qed.

(** C5. Whatever makes the [helm status] probe fail, ReleaseExists answers
    "does not exist" and returns no error: the probe's error never reaches
    the caller.  When the probe succeeds the answer is "exists", again with
    no error.  The probe is run once. *)
Theorem ReleaseExists_swallows_probe_failure name namespace t :
  let probe := env t "helm" ["status"; name; "--namespace"; namespace] in
  let result := ReleaseExists env name namespace t in
  (forall e, cmd_err probe = Some e -> result.1 = (false, None))
  /\ (cmd_err probe = None -> result.1 = (true, None))
  /\ result.1.2 = None
  /\ result.2 = t ++ [Run "helm" ["status"; name; "--namespace"; namespace]].
Proof.
  intros probe result. unfold result, ReleaseExists, mbind, Sh_bind, sh_Run.
  fold probe. destruct (cmd_err probe); cbn; repeat split; intros; congruence.
Qed.

(** The pod-based existence check swallows the failure of its probe in the
    same way. *)
Lemma ArgoRolloutsExists_swallows_probe_failure namespace t :
  (ArgoRolloutsExists env namespace t).1.2 = None.
Proof.
  unfold ArgoRolloutsExists, mbind, Sh_bind, sh_Output. cbv zeta.
  by destruct (cmd_err _).
Qed.

Lemma range_clusters_spec lines name :
  range_clusters lines name
  = (existsb (fun cluster => String.eqb (TrimSpace cluster) name) lines, None).
Proof.
  induction lines as [| cluster lines IH]; [done |].
  cbn. by destruct (String.eqb (TrimSpace cluster) name).
Qed.

(** C10. ClusterExists does not swallow a failure of the cluster listing:
    when [kind get clusters] fails, it returns false together with the
    wrapped error.  It answers false without an error exactly when the
    listing succeeded and no line of it, trimmed, is the name, and true
    exactly when the listing succeeded and some line is.  ReleaseExists, in
    contrast, never returns an error. *)
Theorem ClusterExists_reports_probe_failure name t :
  let listing := env t "kind" ["get"; "clusters"] in
  let result := (ClusterExists env name t).1 in
  (forall e, cmd_err listing = Some e ->
     result = (false, Some (wrapError "failed to get clusters: " e)))
  /\ (result = (false, None)
      <-> cmd_err listing = None
          /\ forall line, In line (SplitLines (cmd_out listing)) ->
                          TrimSpace line <> name)
  /\ (result = (true, None)
      <-> cmd_err listing = None
          /\ exists line, In line (SplitLines (cmd_out listing))
                          /\ TrimSpace line = name)
  /\ (forall release namespace t', (ReleaseExists env release namespace t').1.2 = None).
Proof.
  intros listing result.
  assert (result = match cmd_err listing with
                   | Some e => (false, Some (wrapError "failed to get clusters: " e))
                   | None => range_clusters (SplitLines (cmd_out listing)) name
                   end) as ->.
  { unfold result, ClusterExists, mbind, Sh_bind, sh_Output. fold listing.
    cbv zeta. by destruct (cmd_err listing). }
  rewrite range_clusters_spec.
  split; [| split; [| split]].
  - by intros e ->.
  - destruct (cmd_err listing) as [e|]; [split; [done | by intros [? _]] |].
    split.
    + intros H. split; [done |]. intros line Hin Heq.
      assert (existsb (fun cluster => String.eqb (TrimSpace cluster) name)
                (SplitLines (cmd_out listing)) = true) as Hex.
      { apply existsb_exists. exists line. split; [done |]. by apply String.eqb_eq. }
      congruence.
    + intros [_ Hall]. f_equal. apply not_true_is_false. intros Hex.
      apply existsb_exists in Hex as (line & Hin & Heq).
      apply String.eqb_eq in Heq. by apply (Hall line).
  - destruct (cmd_err listing) as [e|]; [split; [done | by intros [? _]] |].
    split.
    + intros H. split; [done |].
      assert (existsb (fun cluster => String.eqb (TrimSpace cluster) name)
                (SplitLines (cmd_out listing)) = true) as Hex by congruence.
      apply existsb_exists in Hex as (line & Hin & Heq).
      apply String.eqb_eq in Heq. eauto.
    + intros [_ (line & Hin & Heq)]. f_equal.
      apply existsb_exists. exists line. split; [done |]. by apply String.eqb_eq.
  - intros release namespace t'.
    unfold ReleaseExists, mbind, Sh_bind, sh_Run. by case_match.
Qed.

End ShellFacts.

(** *** The fake environments, evaluated *)

Lemma readiness_wait_attempts_witness :
  (WaitForNamespaceDeleted Fake.never "argocd" []
   = (Some (namespace_timeout "argocd"),
      namespace_banner "argocd" :: rounds "kubectl" (namespace_probe "argocd") 60)
   /\ length (probes (rounds "kubectl" (namespace_probe "argocd") 60)) = 60%nat
   /\ sleeps (rounds "kubectl" (namespace_probe "argocd") 60) = replicate 60 1)
  /\ WaitForNamespaceDeleted (Fake.gone_after 3) "argocd" []
     = (None,
        namespace_banner "argocd" :: rounds "kubectl" (namespace_probe "argocd") 3
          ++ [Run "kubectl" (namespace_probe "argocd");
              Stdout ("✅ Namespace '" ++ "argocd" ++ "' has been deleted" ++ nl)])
  /\ WaitForArgoRolloutsReady Fake.never "argo-rollouts" []
     = (Some (rollouts_timeout "argo-rollouts"),
        rollouts_banner "argo-rollouts"
          :: rounds "kubectl" (rollouts_probe "argo-rollouts") 60)
  /\ WaitForArgoRolloutsReady
       (Fake.ready_after 2 "argo-rollouts-7f9c  1/1  Running  0  12s") "argo-rollouts" []
     = (None,
        rollouts_banner "argo-rollouts"
          :: rounds "kubectl" (rollouts_probe "argo-rollouts") 2
          ++ [Run "kubectl" (rollouts_probe "argo-rollouts");
              Stdout ("✅ Argo Rollouts is ready" ++ nl)]).
Proof.
  pose proof (readiness_wait_attempts Fake.never "argocd" []) as (N1 & _ & _ & _ & C & _).
  pose proof (readiness_wait_attempts (Fake.gone_after 3) "argocd" []) as (_ & N2 & _).
  pose proof (readiness_wait_attempts Fake.never "argo-rollouts" [])
    as (_ & _ & R1 & _).
  pose proof (readiness_wait_attempts
                (Fake.ready_after 2 "argo-rollouts-7f9c  1/1  Running  0  12s")
                "argo-rollouts" []) as (_ & _ & _ & R2 & _).
  split; [split; [| split] |]; [| | | split; [| split]].
  - apply N1. intros k _. reflexivity.
  - rewrite (proj1 (C _ _ _)). apply length_replicate.
  - exact (proj2 (C _ _ _)).
  - apply (N2 3%nat); [lia | | reflexivity].
    intros [| [| [| j]]] Hj; [reflexivity .. | lia].
  - apply R1. intros k _. reflexivity.
  - apply (R2 2%nat); [lia | | reflexivity].
    intros [| [| j]] Hj; [reflexivity .. | lia].
Defined.

Lemma ReleaseExists_swallows_probe_failure_witness :
  cmd_err (Fake.denied [] "helm" ["status"; "argo-cd"; "--namespace"; "argocd"])
  = Some (errorString "permission denied")
  /\ (ReleaseExists Fake.denied "argo-cd" "argocd" []).1 = (false, None)
  /\ cmd_err (Fake.never [] "helm" ["status"; "argo-cd"; "--namespace"; "argocd"]) = None
  /\ (ReleaseExists Fake.never "argo-cd" "argocd" []).1 = (true, None).
Proof.
  pose proof (ReleaseExists_swallows_probe_failure Fake.denied "argo-cd" "argocd" [])
    as (H1 & _).
  pose proof (ReleaseExists_swallows_probe_failure Fake.never "argo-cd" "argocd" [])
    as (_ & H2 & _).
  split; [reflexivity |]. split; [exact (H1 _ eq_refl) |].
  split; [reflexivity | exact (H2 eq_refl)].
Defined.

Lemma ClusterExists_reports_probe_failure_witness :
  cmd_err (Fake.denied [] "kind" ["get"; "clusters"])
  = Some (errorString "permission denied")
  /\ (ClusterExists Fake.denied "kargo" []).1
     = (false, Some (wrapError "failed to get clusters: "
                       (errorString "permission denied")))
  /\ (ReleaseExists Fake.denied "argo-cd" "argocd" []).1 = (false, None)
  /\ (ClusterExists (Fake.listing ("kind" ++ nl ++ "kargo")) "kargo" []).1 = (true, None)
  /\ (ClusterExists (Fake.listing ("kind" ++ nl ++ "kargo")) "karg" []).1 = (false, None).
Proof.
  pose proof (ClusterExists_reports_probe_failure Fake.denied "kargo" [])
    as (H1 & _).
  pose proof (ClusterExists_reports_probe_failure
                (Fake.listing ("kind" ++ nl ++ "kargo")) "kargo" [])
    as (_ & _ & H2 & _).
  pose proof (ClusterExists_reports_probe_failure
                (Fake.listing ("kind" ++ nl ++ "kargo")) "karg" [])
    as (_ & H3 & _).
  split; [reflexivity |]. split; [exact (H1 _ eq_refl) |].
  split; [reflexivity |]. split.
  - apply H2. split; [reflexivity |]. exists "kargo". split; [| reflexivity].
    right. left. reflexivity.
  - apply H3. split; [reflexivity |].
    intros line [<- | [<- | []]]; vm_compute; discriminate.
Defined.

(** ** Further properties of the port-forward manager *)

Section CheckAgain.

Variable DataHome : string.

Implicit Types (w : World) (service namespace : string) (pid : Z).

(** What a status check can do to the world: nothing, or unlink the PID
    file of its pair. *)
Lemma check_world service namespace w :
  (IsPortForwardRunning DataHome service namespace w).2 = w
  \/ ((IsPortForwardRunning DataHome service namespace w).1 = (false, 0, None)
      /\ (IsPortForwardRunning DataHome service namespace w).2
         = unlinked (PortForwardPIDFile DataHome service namespace) w).
Proof.
  rewrite check_cases. cbv zeta.
  destruct (files w !! PortForwardPIDFile DataHome service namespace)
    as [[| data [|] wr] |]; try (by left).
  destruct (Atoi (TrimSpace data)) as [pid | e]; [| by left].
  destruct (Process_Signal pid Signal0 w).1; [by right | by left].
Qed.

(** X1. The status check is idempotent: a second call in a row gives the
    answer of the first and changes nothing any more. *)
Theorem check_idempotent service namespace w :
  IsPortForwardRunning DataHome service namespace
    (IsPortForwardRunning DataHome service namespace w).2
  = ((IsPortForwardRunning DataHome service namespace w).1,
     (IsPortForwardRunning DataHome service namespace w).2).
Proof.
  destruct (check_world service namespace w) as [Hw | [Hr Hw]].
  - rewrite Hw.
    destruct (IsPortForwardRunning DataHome service namespace w) as [r w0].
    cbn [fst snd] in *. by subst.
  - rewrite Hw, Hr. apply check_absent.
    unfold no_pid_file, unlinked. cbn [files]. apply lookup_delete_eq.
Qed.

(** What a status check leaves alone: the processes, the executables and
    every file but the PID file of its pair. *)
Lemma check_footprint service namespace w :
  procs (IsPortForwardRunning DataHome service namespace w).2 = procs w
  /\ executables (IsPortForwardRunning DataHome service namespace w).2
     = executables w
  /\ (forall path, path <> PortForwardPIDFile DataHome service namespace ->
        files (IsPortForwardRunning DataHome service namespace w).2 !! path
        = files w !! path).
Proof.
  destruct (check_world service namespace w) as [Hw | [_ Hw]]; rewrite Hw.
  - repeat split; auto.
  - unfold unlinked. cbn [files procs executables].
    split; [done |]. split; [done |].
    intros path Hne. by rewrite lookup_delete_ne.
Qed.

(** X2. The status check of a pair leaves the process table, the
    executables and every file but the PID file of the pair alone; the PID
    file itself is kept as it is or deleted, never rewritten. *)
Theorem check_frame service namespace w :
  let pidFile := PortForwardPIDFile DataHome service namespace in
  let w' := (IsPortForwardRunning DataHome service namespace w).2 in
  procs w' = procs w
  /\ executables w' = executables w
  /\ (forall path, path <> pidFile -> files w' !! path = files w !! path)
  /\ (files w' !! pidFile = files w !! pidFile \/ files w' !! pidFile = None).
Proof.
  intros pidFile w'. subst w'.
  destruct (check_footprint service namespace w) as (Hp & He & Hf).
  split; [done |]. split; [done |]. split; [done |].
  destruct (check_world service namespace w) as [Hw | [_ Hw]]; rewrite Hw.
  - by left.
  - right. unfold unlinked. cbn [files]. apply lookup_delete_eq.
Qed.

(** X3. A process that is alive but that the caller may not signal counts
    as dead: the status check answers "not running" without an error and
    deletes the PID file, and the process goes on running. *)
Theorem check_unsignalable_process service namespace w p pr :
  records DataHome w service namespace (Z.pos p) ->
  procs w !! p = Some pr ->
  owned pr = false ->
  let w' := (IsPortForwardRunning DataHome service namespace w).2 in
  (IsPortForwardRunning DataHome service namespace w).1 = (false, 0, None)
  /\ no_pid_file DataHome w' service namespace
  /\ procs w' !! p = Some pr.
Proof.
  intros Hrec Hp Ho w'. subst w'.
  rewrite (check_unanswered DataHome service namespace w (Z.pos p)); [| done | lia |].
  - split; [done |]. split; [| done].
    unfold no_pid_file, unlinked. cbn [files]. apply lookup_delete_eq.
  - intros (q & pr' & Hq & Hq' & Ho'). injection Hq as <-. congruence.
Qed.

(** A status check that fails leaves the world as it was. *)
Lemma check_error_world service namespace w running pid e w' :
  IsPortForwardRunning DataHome service namespace w = ((running, pid, Some e), w') ->
  w' = w.
Proof.
  intros H. destruct (check_world service namespace w) as [Hw | [Hr _]].
  - rewrite H in Hw. exact (eq_sym (eq_sym Hw)).
  - rewrite H in Hr. discriminate Hr.
Qed.

(** X4. When the status check fails (the PID file cannot be read or
    parsed), StopPortForward gives up with that error wrapped: it sends no
    signal and changes nothing. *)
Theorem stop_status_check_failure service namespace w running pid e w' :
  IsPortForwardRunning DataHome service namespace w = ((running, pid, Some e), w') ->
  StopPortForward DataHome service namespace w
  = (Some (wrapError "failed to check port forwarding status: " e), w).
Proof.
  intros H. pose proof (check_error_world _ _ _ _ _ _ _ H) as ->.
  rewrite stop_unfold, H. by destruct running.
Qed.

(** X5. StopPortForward cannot succeed twice in a row: after a call that
    succeeded, the next call for the pair returns the "not running" error
    and changes nothing. *)
Theorem stop_twice service namespace w w' :
  StopPortForward DataHome service namespace w = (None, w') ->
  StopPortForward DataHome service namespace w'
  = (Some (errorString "port forwarding is not running"), w').
Proof.
  intros H. rewrite stop_unfold in H.
  pose proof (check_cases DataHome service namespace w) as Hc. cbv zeta in Hc.
  destruct (IsPortForwardRunning DataHome service namespace w)
    as [[[running pid] [e|]] w1]; [by destruct running |].
  destruct running; [| done].
  assert (w1 = w /\ is_Some (files w !! PortForwardPIDFile DataHome service namespace))
    as [-> Hsome].
  { destruct (files w !! PortForwardPIDFile DataHome service namespace)
      as [[| data [|] wr] |]; try done.
    destruct (Atoi (TrimSpace data)); [| done].
    destruct (Process_Signal z Signal0 w).1; [done |].
    injection Hc as _ ->. eauto. }
  pose proof (Kill_files (- pid) SIGTERM w) as Hfiles.
  destruct (Kill (- pid) SIGTERM w) as [[e|] w2]; [done |].
  cbn [snd] in Hfiles. injection H as <-.
  rewrite stop_unfold, check_absent; [done |].
  unfold no_pid_file, Remove. rewrite Hfiles.
  destruct Hsome as [nd Hnd]. rewrite Hnd.
  destruct nd as [| data r wr].
  - destruct (has_children _ _); cbn [snd files].
    + exfalso.
      destruct (files w !! PortForwardPIDFile DataHome service namespace)
        as [[| data [|] wr] |] eqn:E; try done.
    + apply lookup_delete_eq.
  - cbn [snd files]. apply lookup_delete_eq.
Qed.

End CheckAgain.

(** *** White space around the process id *)

Section Blank.

Lemma strip_one_space c r :
  ascii_space c = true -> strip_one space_runes (String c r) = Some r.
Proof.
  destruct c as [[] [] [] [] [] [] [] []]; intros H; try discriminate H;
    destruct r; reflexivity.
Qed.

Lemma strip_one_rev_space c r :
  ascii_space c = true -> strip_one (map revBytes space_runes) (String c r) = Some r.
Proof.
  destruct c as [[] [] [] [] [] [] [] []]; intros H; try discriminate H;
    destruct r; reflexivity.
Qed.

Lemma numeral_not_space c : numeral_char c = true -> ascii_space c = false.
Proof.
  destruct c as [[] [] [] [] [] [] [] []]; intros H; try discriminate H; reflexivity.
Qed.

(** Leading white space is trimmed up to the first byte of a numeral. *)
Lemma trim_left_blank runes pre c r :
  strip_one runes (String c r) = None ->
  (forall a s, ascii_space a = true -> strip_one runes (String a s) = Some s) ->
  blank pre = true ->
  forall fuel, (String.length pre <= fuel)%nat ->
    trim_left runes fuel (pre ++ String c r)%string = String c r.
Proof.
  intros Hstop Hstrip. induction pre as [| a pre IH]; intros Hb fuel Hlen.
  - change ("" ++ String c r)%string with (String c r).
    destruct fuel; [done |]. cbn [trim_left]. by rewrite Hstop.
  - cbn in Hb. apply andb_true_iff in Hb as [Ha Hb].
    destruct fuel as [| fuel]; [cbn in Hlen; lia |].
    change (String a pre ++ String c r)%string with (String a (pre ++ String c r)%string).
    cbn [trim_left]. rewrite (Hstrip _ _ Ha). apply IH; [done |]. cbn in Hlen. lia.
Qed.

Lemma length_append (a b : string) :
  String.length (a ++ b)%string = (String.length a + String.length b)%nat.
Proof.
  induction a as [| c a IH]; [done |].
  change (String c a ++ b)%string with (String c (a ++ b)%string). cbn. by rewrite IH.
Qed.

Lemma revBytes_append_app (a b acc : string) :
  revBytes_append (a ++ b)%string acc = revBytes_append b (revBytes_append a acc).
Proof.
  revert acc. induction a as [| c a IH]; intros acc; [done |].
  change (String c a ++ b)%string with (String c (a ++ b)%string). cbn. apply IH.
Qed.

Lemma append_assoc (a b c : string) :
  ((a ++ b) ++ c)%string = (a ++ (b ++ c))%string.
Proof.
  induction a as [| x a IH]; [done |].
  change (String x ((a ++ b) ++ c)%string = String x (a ++ (b ++ c))%string).
  by rewrite IH.
Qed.

Lemma revBytes_append_acc (s acc : string) :
  revBytes_append s acc = (revBytes s ++ acc)%string.
Proof.
  revert acc. induction s as [| c s IH]; intros acc; [done |].
  unfold revBytes. cbn. rewrite (IH (String c acc)), (IH (String c "")).
  by rewrite append_assoc.
Qed.

Lemma revBytes_app (a b : string) :
  revBytes (a ++ b)%string = (revBytes b ++ revBytes a)%string.
Proof. unfold revBytes at 1. rewrite revBytes_append_app. apply revBytes_append_acc. Qed.

Lemma blank_revBytes_append s acc :
  blank s = true -> blank acc = true -> blank (revBytes_append s acc) = true.
Proof.
  revert acc. induction s as [| c s IH]; intros acc Hs Ha; [done |].
  cbn in *. apply andb_true_iff in Hs as [Hc Hs]. apply IH; [done |].
  cbn. by rewrite Hc, Ha.
Qed.

(** [TrimSpace] takes ASCII white space off both ends of a numeral and
    leaves the numeral. *)
Lemma TrimSpace_blank_numeral pre s post :
  blank pre = true -> blank post = true -> numeral s = true -> s <> EmptyString ->
  TrimSpace (pre ++ s ++ post)%string = s.
Proof.
  intros Hpre Hpost Hs Hne. unfold TrimSpace.
  assert (TrimLeftSpace (pre ++ s ++ post)%string = (s ++ post)%string) as ->.
  { destruct s as [| c r]; [done |]. cbn in Hs. apply andb_true_iff in Hs as [Hc _].
    unfold TrimLeftSpace.
    change (String c r ++ post)%string with (String c (r ++ post)%string).
    apply trim_left_blank; auto using strip_one_numeral, strip_one_space.
    rewrite length_append. lia. }
  unfold TrimRightSpace. rewrite revBytes_app.
  assert (numeral (revBytes s) = true) as Hrs by by apply revBytes_append_numeral.
  assert (revBytes s <> EmptyString) as Hrne.
  { intros E. apply Hne. by rewrite <- (revBytes_involutive s), E. }
  destruct (revBytes s) as [| c r] eqn:E; [done |].
  cbn in Hrs. apply andb_true_iff in Hrs as [Hc _].
  rewrite trim_left_blank; auto using strip_one_rev_numeral, strip_one_rev_space.
  - by rewrite <- E, revBytes_involutive.
  - by apply blank_revBytes_append.
  - rewrite length_append. unfold revBytes.
    rewrite length_revBytes_append. cbn. lia.
Qed.

Lemma Itoa_not_empty n : Itoa n <> EmptyString.
Proof.
  unfold Itoa, NilZero.string_of_int, NilZero.string_of_uint.
  destruct n as [| p | p]; [done | |]; cbn [Z.to_int].
  - pose proof (DecimalPos.Unsigned.to_uint_nonnil p) as Hn.
    destruct (Pos.to_uint p); done.
  - done.
Qed.

End Blank.

Section CheckBlank.

Variable DataHome : string.

(** X6. ASCII white space around the number in the PID file does not
    matter: a PID file holding the decimal id of a live process between
    blanks, tabs or line ends (as a hand-written file has) is reported as
    running under that id, and nothing changes. *)
Theorem check_ignores_white_space service namespace w pre post pid wr :
  blank pre = true -> blank post = true ->
  minInt <= pid <= maxInt ->
  files w !! PortForwardPIDFile DataHome service namespace
  = Some (File (pre ++ Itoa pid ++ post)%string true wr) ->
  alive w pid ->
  IsPortForwardRunning DataHome service namespace w = ((true, pid, None), w).
Proof.
  intros Hpre Hpost Hrange Hf Ha. apply check_running. split; [| done].
  exists (pre ++ Itoa pid ++ post)%string, wr. split; [done |].
  rewrite TrimSpace_blank_numeral;
    auto using numeral_Itoa, Itoa_not_empty.
  rewrite <- (TrimSpace_numeral (Itoa pid)) by apply numeral_Itoa.
  by apply Atoi_TrimSpace_Itoa.
Qed.

End CheckBlank.

(** *** Signals to a process group *)

Section Groups.

Implicit Types (w : World) (p g q : positive) (ps : gmap positive proc).

Lemma addressed_group g q pr :
  g <> 1%positive -> addressed (Z.neg g) q pr = Pos.eqb (pgid pr) g.
Proof.
  intros Hg. unfold addressed. change (0 <? Z.neg g) with false. cbv iota.
  assert ((Z.neg g <? -1) = true) as -> by (apply Z.ltb_lt; lia).
  change (Z.opp (Z.neg g)) with (Z.pos g). reflexivity.
Qed.

Lemma deliverable_group_lookup g ps q :
  g <> 1%positive ->
  deliverable (Z.neg g) ps !! q
  = match ps !! q with
    | Some pr => if in_group g pr then Some pr else None
    | None => None
    end.
Proof.
  intros Hg. unfold deliverable, recipients.
  destruct (ps !! q) as [pr|] eqn:E.
  - destruct (in_group g pr) eqn:Ei; unfold in_group in Ei.
    + apply andb_true_iff in Ei as [Hgrp Hown].
      apply map_lookup_filter_Some. split; [| done].
      apply map_lookup_filter_Some. split; [done |].
      cbn [fst snd]. by rewrite addressed_group.
    + apply map_lookup_filter_None. right. intros pr' Hpr' Hown.
      apply map_lookup_filter_Some in Hpr' as [Hl Ha].
      cbn [fst snd] in *. rewrite addressed_group in Ha by done.
      assert (pr' = pr) as -> by congruence. by rewrite Ha, Hown in Ei.
  - apply map_lookup_filter_None. left. apply map_lookup_filter_None. by left.
Qed.

Lemma recipients_deliverable target ps :
  deliverable target ps <> ∅ -> recipients target ps <> ∅.
Proof.
  intros Hd Hr. apply Hd. unfold deliverable. rewrite Hr. apply map_filter_empty.
Qed.

(** A signal to a process group is delivered exactly when the group has a
    member the caller may signal, and then it ends those members and no
    other process. *)
Lemma Kill_group g w :
  g <> 1%positive ->
  ((Kill (Z.neg g) SIGTERM w).1 = None
   <-> exists q pr, procs w !! q = Some pr /\ in_group g pr = true)
  /\ ((Kill (Z.neg g) SIGTERM w).1 = None ->
      forall q, procs (Kill (Z.neg g) SIGTERM w).2 !! q
                = match procs w !! q with
                  | Some pr => if in_group g pr then None else Some pr
                  | None => None
                  end).
Proof.
  intros Hg.
  assert (deliverable (Z.neg g) (procs w) <> ∅
          <-> exists q pr, procs w !! q = Some pr /\ in_group g pr = true) as Hd.
  { split.
    - intros Hne. apply map_choose in Hne as (q & pr & Hq).
      rewrite deliverable_group_lookup in Hq by done.
      destruct (procs w !! q) as [pr'|] eqn:E; [| done].
      destruct (in_group g pr') eqn:Ei; [| done]. eauto.
    - intros (q & pr & Hq & Hi) He.
      assert (deliverable (Z.neg g) (procs w) !! q = Some pr) as Hl
        by by rewrite deliverable_group_lookup, Hq, Hi.
      by rewrite He, lookup_empty in Hl. }
  unfold Kill.
  destruct (decide (recipients (Z.neg g) (procs w) = ∅)) as [Hr | Hr].
  { split; [| done]. split; [done |]. intros Hex. apply Hd in Hex.
    by apply recipients_deliverable in Hex. }
  destruct (decide (deliverable (Z.neg g) (procs w) = ∅)) as [He | He].
  { split; [| done]. split; [done |]. intros Hex. by apply Hd in Hex. }
  split; [split; [intros _; by apply Hd | done] |].
  intros _ q. cbn [snd deliver procs].
  rewrite lookup_difference, deliverable_group_lookup by done.
  destruct (procs w !! q) as [pr|]; [| done]. by destruct (in_group g pr).
Qed.

Lemma Kill_executables target sig w :
  executables (Kill target sig w).2 = executables w.
Proof. unfold Kill. repeat case_decide; try done. by destruct sig. Qed.

(** No signal creates or alters a process. *)
Lemma Kill_procs target sig w q pr :
  procs (Kill target sig w).2 !! q = Some pr -> procs w !! q = Some pr.
Proof.
  unfold Kill. repeat case_decide; try done. destruct sig; [done | |];
    cbn [snd deliver procs]; rewrite lookup_difference_Some; by intros [? _].
Qed.

End Groups.

Section StopMore.

Variable DataHome : string.

Implicit Types (w : World) (service namespace : string).

(** X7. On a running session whose recorded id is not 1, StopPortForward
    succeeds exactly when the process group with that id has a member the
    caller may signal.  It then ends those members, the forwarder's
    descendants in its group included, and no other process. *)
Theorem stop_signals_process_group service namespace w p :
  session_running DataHome w service namespace (Z.pos p) ->
  p <> 1%positive ->
  ((StopPortForward DataHome service namespace w).1 = None
   <-> exists q pr, procs w !! q = Some pr /\ in_group p pr = true)
  /\ ((StopPortForward DataHome service namespace w).1 = None ->
      forall q, procs (StopPortForward DataHome service namespace w).2 !! q
                = match procs w !! q with
                  | Some pr => if in_group p pr then None else Some pr
                  | None => None
                  end).
Proof.
  intros Hrun Hp. rewrite stop_unfold, (check_running _ _ _ _ _ Hrun).
  change (Z.opp (Z.pos p)) with (Z.neg p).
  destruct (Kill_group p w Hp) as [Hiff Hprocs].
  destruct (Kill (Z.neg p) SIGTERM w) as [[e|] w1] eqn:E; cbn [fst snd] in *.
  - split; [| done]. split; [done |]. intros Hex. by apply Hiff in Hex.
  - split; [by split; [intros _; apply Hiff | ] |].
    intros _ q. rewrite <- (Hprocs eq_refl q).
    unfold Remove. by repeat case_match.
Qed.

(** X8. StopPortForward leaves the executables and every file but the PID
    file of the pair alone, and it starts and alters no process: whatever
    runs afterwards ran before. *)
Theorem stop_frame service namespace w :
  let w' := (StopPortForward DataHome service namespace w).2 in
  executables w' = executables w
  /\ (forall path, path <> PortForwardPIDFile DataHome service namespace ->
        files w' !! path = files w !! path)
  /\ (forall q pr, procs w' !! q = Some pr -> procs w !! q = Some pr).
Proof.
  intros w'. subst w'. rewrite stop_unfold.
  destruct (check_footprint DataHome service namespace w) as (Hp & He & Hf).
  destruct (IsPortForwardRunning DataHome service namespace w)
    as [[[running pid] [e|]] w1]; cbn [snd] in *.
  { destruct running; cbn [snd]; rewrite Hp, He; auto. }
  destruct running; cbn [snd]; [| rewrite Hp, He; auto].
  pose proof (Kill_files (- pid) SIGTERM w1) as Hkf.
  pose proof (Kill_executables (- pid) SIGTERM w1) as Hke.
  pose proof (Kill_procs (- pid) SIGTERM w1) as Hkp.
  destruct (Kill (- pid) SIGTERM w1) as [[e|] w2]; cbn [snd] in *.
  - rewrite Hke, He. split; [done |]. split.
    + intros path Hne. rewrite Hkf. by apply Hf.
    + intros q pr Hq. rewrite <- Hp. by apply Hkp.
  - assert (forall q pr,
              procs (Remove (PortForwardPIDFile DataHome service namespace) w2).2 !! q
              = Some pr -> procs w2 !! q = Some pr) as Hrp
      by (intros q pr; unfold Remove; by repeat case_match).
    split; [| split].
    + unfold Remove. repeat case_match; cbn [snd executables]; congruence.
    + intros path Hne. rewrite <- (Hf path Hne), <- Hkf.
      unfold Remove. repeat case_match; cbn [snd files]; try done;
        by rewrite lookup_delete_ne.
    + intros q pr Hq. rewrite <- Hp. by apply Hkp, Hrp.
Qed.

End StopMore.

(** *** Starting, once more *)

Section StartMore.

Variable DataHome : string.

Implicit Types (w : World) (service namespace : string).

(** The three worlds a call of StartPortForward can leave behind: the
    world as it was, the world with the data directory made, or that world
    with the child spawned and its id in the PID file. *)
Lemma start_world service namespace localPort remotePort w :
  let kargoDir := Join [DataHome; "kargo"] in
  let pidFile := PortForwardPIDFile DataHome service namespace in
  let w1 := (MkdirAll kargoDir w).2 in
  let result := StartPortForward DataHome service namespace localPort remotePort w in
  (exists e, result.1 = (0, Some e) /\ (result.2 = w \/ result.2 = w1))
  \/ (exists r,
        result.1 = (Z.pos (child_of w), None)
        /\ result.2
           = mkWorld (<[pidFile := File (Itoa (Z.pos (child_of w))) r true]> (files w1))
                     (<[child_of w := mkProc (child_of w) true
                          (forwarder service namespace localPort remotePort)]> (procs w))
                     (executables w)
        /\ match files w !! pidFile with
           | None => r = true
           | Some (File _ r0 true) => r = r0
           | _ => False
           end).
Proof.
  intros kargoDir pidFile w1 result.
  destruct (MkdirAll kargoDir w).1 as [e|] eqn:Em.
  { left. unfold result. rewrite (start_no_directory _ _ _ _ _ _ e Em). eauto. }
  destruct (decide ("kubectl" ∈ executables w)) as [Hk | Hk].
  2: { left. unfold result. rewrite (start_no_kubectl _ _ _ _ _ _ Em Hk). eauto. }
  pose proof (start_spawned DataHome service namespace localPort remotePort w Em Hk)
    as Hs. cbv zeta in Hs. fold kargoDir pidFile w1 result in Hs.
  destruct (files w !! pidFile) as [[| data r [|]] |]; rewrite Hs; eauto 10.
Qed.

(** X9. A call of StartPortForward that returns an error returns the
    process id 0, leaves no new process behind and leaves the PID file of
    the pair as it was, whichever step failed. *)
Theorem start_failure_leaves_no_trace service namespace localPort remotePort w pid e :
  (StartPortForward DataHome service namespace localPort remotePort w).1 = (pid, Some e) ->
  let w' := (StartPortForward DataHome service namespace localPort remotePort w).2 in
  pid = 0
  /\ procs w' = procs w
  /\ executables w' = executables w
  /\ files w' !! PortForwardPIDFile DataHome service namespace
     = files w !! PortForwardPIDFile DataHome service namespace.
Proof.
  intros H w'. subst w'.
  destruct (start_world service namespace localPort remotePort w)
    as [(e' & Hr & Hw) | (r & Hr & _)]; cbv zeta in *; [| congruence].
  rewrite Hr in H. injection H as <- _.
  destruct Hw as [-> | ->]; [done |].
  rewrite MkdirAll_procs, MkdirAll_executables, MkdirAll_other;
    auto using pidFile_not_kargoDir.
Qed.


(** The world a successful start leaves holds a running session of the
    pair under the returned id, when the PID file was not an unreadable one
    and the id fits an [int]. *)
Lemma started_session service namespace localPort remotePort w pid :
  (StartPortForward DataHome service namespace localPort remotePort w).1 = (pid, None) ->
  (forall data wr,
      files w !! PortForwardPIDFile DataHome service namespace
      <> Some (File data false wr)) ->
  pid <= maxInt ->
  session_running DataHome
    (StartPortForward DataHome service namespace localPort remotePort w).2
    service namespace pid.
Proof.
  intros H Hreadable Hle.
  destruct (start_world service namespace localPort remotePort w)
    as [(e' & Hr & _) | (r & Hr & -> & Hf)]; cbv zeta in *; [congruence |].
  rewrite Hr in H. injection H as <-.
  assert (r = true) as ->.
  { destruct (files w !! PortForwardPIDFile DataHome service namespace)
      as [[| data r0 [|]] |] eqn:E; try done.
    subst r0. destruct r; [done |]. by destruct (Hreadable data true). }
  split.
  - exists (Itoa (Z.pos (child_of w))), true. cbn [files].
    split; [apply lookup_insert_eq |].
    apply Atoi_TrimSpace_Itoa. split; [unfold minInt; lia | done].
  - exists (child_of w), (mkProc (child_of w) true
              (forwarder service namespace localPort remotePort)).
    cbn [procs]. by rewrite lookup_insert_eq.
Qed.

(** X11. Start, then check: when StartPortForward has succeeded, the PID
    file was not an unreadable one and the new process id fits an [int],
    IsPortForwardRunning reports the session as running under the returned
    id, and changes nothing. *)
Theorem start_then_check service namespace localPort remotePort w pid :
  (StartPortForward DataHome service namespace localPort remotePort w).1 = (pid, None) ->
  (forall data wr,
      files w !! PortForwardPIDFile DataHome service namespace
      <> Some (File data false wr)) ->
  pid <= maxInt ->
  let w' := (StartPortForward DataHome service namespace localPort remotePort w).2 in
  IsPortForwardRunning DataHome service namespace w' = ((true, pid, None), w').
Proof.
  intros H Hreadable Hle w'. subst w'.
  by apply check_running, started_session.
Qed.

(** X12. Start, then stop: on a machine where init runs, no PID file
    exists for the pair and no process is in a group named by the id the
    child will get, a successful StartPortForward followed by
    StopPortForward succeeds and undoes the start: the process table is
    what it was and the PID file is gone again; what remains is the data
    directory. *)
Theorem start_then_stop service namespace localPort remotePort w pid :
  (StartPortForward DataHome service namespace localPort remotePort w).1 = (pid, None) ->
  no_pid_file DataHome w service namespace ->
  pid <= maxInt ->
  is_Some (procs w !! 1%positive) ->
  (forall q pr, procs w !! q = Some pr -> pgid pr <> child_of w) ->
  StopPortForward DataHome service namespace
    (StartPortForward DataHome service namespace localPort remotePort w).2
  = (None, (MkdirAll (Join [DataHome; "kargo"]) w).2).
Proof.
  intros H Hno Hle Hinit Hgroup.
  assert (forall data wr,
            files w !! PortForwardPIDFile DataHome service namespace
            <> Some (File data false wr)) as Hreadable
    by (intros data wr; unfold no_pid_file in Hno; by rewrite Hno).
  pose proof (check_running _ _ _ _ _
                (started_session _ _ _ _ _ _ H Hreadable Hle)) as Hcheck.
  rewrite stop_unfold, Hcheck. clear Hcheck.
  destruct (start_world service namespace localPort remotePort w)
    as [(e' & Hr & _) | (r & Hr & Hw & Hf)]; cbv zeta in *; [congruence |].
  rewrite Hr in H. injection H as <-. rewrite Hw. clear Hr Hw.
  unfold no_pid_file in Hno. rewrite Hno in Hf. subst r.
  assert (child_of w <> 1%positive) as Hc1.
  { intros E. destruct Hinit as [pr Hpr]. rewrite <- E, child_of_fresh in Hpr. done. }
  set (child := child_of w) in *.
  set (w2 := mkWorld _ _ _).
  change (Z.opp (Z.pos child)) with (Z.neg child).
  destruct (Kill_group child w2 Hc1) as [Hiff Hprocs].
  pose proof (Kill_files (Z.neg child) SIGTERM w2) as Hkf.
  pose proof (Kill_executables (Z.neg child) SIGTERM w2) as Hke.
  assert ((Kill (Z.neg child) SIGTERM w2).1 = None) as Hok.
  { apply Hiff. exists child, (mkProc child true
                     (forwarder service namespace localPort remotePort)).
    split; [unfold w2; cbn [procs]; apply lookup_insert_eq |].
    unfold in_group. cbn [pgid owned]. by rewrite Pos.eqb_refl. }
  specialize (Hprocs Hok).
  destruct (Kill (Z.neg child) SIGTERM w2) as [[e|] w3]; cbn [fst snd] in *; [done |].
  unfold Remove. rewrite Hkf. unfold w2 at 1. cbn [files]. rewrite lookup_insert_eq.
  cbn [snd]. f_equal.
  pose proof (MkdirAll_procs (Join [DataHome; "kargo"]) w) as Hmp.
  pose proof (MkdirAll_executables (Join [DataHome; "kargo"]) w) as Hme.
  pose proof (MkdirAll_other (Join [DataHome; "kargo"]) w _
                (pidFile_not_kargoDir DataHome service namespace)) as Hmf.
  destruct (MkdirAll (Join [DataHome; "kargo"]) w).2 as [fs1 ps1 ex1] eqn:Em.
  cbn [files procs executables] in *. subst ps1 ex1.
  rewrite Hke. unfold w2. cbn [files executables]. f_equal.
  - apply delete_insert_id. by rewrite Hmf.
  - apply map_eq. intros q. rewrite Hprocs. unfold w2. cbn [procs].
    destruct (decide (q = child)) as [-> | Hne].
    + rewrite lookup_insert_eq. unfold in_group. cbn [pgid owned].
      rewrite Pos.eqb_refl. cbn. symmetry. apply child_of_fresh.
    + rewrite lookup_insert_ne by done.
      destruct (procs w !! q) as [pr|] eqn:E; [| done].
      unfold in_group.
      assert (Pos.eqb (pgid pr) child = false) as ->; [| done].
      apply Pos.eqb_neq. by apply (Hgroup q).
Qed.

End StartMore.

(** *** The key of a session *)

Section Keys.

Variable DataHome : string.





(** X13. The PID file does not tell a hyphen inside a name from the hyphen
    between service and namespace: the pairs (s-x, n) and (s, x-n) have the
    same PID file, so each of them sees, and stops, the session of the
    other. *)
Theorem pid_file_shared_across_hyphen (s x n : string) :
  PortForwardPIDFile DataHome (s ++ "-" ++ x) n
  = PortForwardPIDFile DataHome s (x ++ "-" ++ n)
  /\ (forall w, IsPortForwardRunning DataHome (s ++ "-" ++ x) n w
                = IsPortForwardRunning DataHome s (x ++ "-" ++ n) w)
  /\ (forall w, StopPortForward DataHome (s ++ "-" ++ x) n w
                = StopPortForward DataHome s (x ++ "-" ++ n) w).
Proof.
  assert (PortForwardPIDFile DataHome (s ++ "-" ++ x) n
          = PortForwardPIDFile DataHome s (x ++ "-" ++ n)) as Hpath.
  { unfold PortForwardPIDFile. do 3 f_equal.
    change ("-" ++ x)%string with (String "-" x).
    change ("-" ++ n ++ ".pid")%string with (String "-" (n ++ ".pid")%string).
    change ("-" ++ n)%string with (String "-" n).
    change ("-" ++ (x ++ String "-" n) ++ ".pid")%string
      with (String "-" ((x ++ String "-" n) ++ ".pid")%string).
    rewrite !append_assoc. reflexivity. }
  split; [exact Hpath |]. split.
  - intros w. unfold IsPortForwardRunning. by rewrite Hpath.
  - intros w. unfold StopPortForward, IsPortForwardRunning. by rewrite Hpath.
Qed.



End Keys.

(** *** The further scenarios, evaluated *)

Import MoreScenarios.

Lemma check_unsignalable_process_witness :
  records home foreign_world "argocd-server" "argocd" 4711
  /\ procs foreign_world !! 4711%positive = Some (mkProc 4711 false ["sshd"])
  /\ (IsPortForwardRunning home "argocd-server" "argocd" foreign_world).1
     = (false, 0, None)
  /\ no_pid_file home
       (IsPortForwardRunning home "argocd-server" "argocd" foreign_world).2
       "argocd-server" "argocd".
Proof.
  assert (records home foreign_world "argocd-server" "argocd" 4711) as H1
    by (exists "4711", true; split; reflexivity).
  assert (procs foreign_world !! 4711%positive = Some (mkProc 4711 false ["sshd"]))
    as H2 by reflexivity.
  pose proof (check_unsignalable_process home _ _ _ _ _ H1 H2 eq_refl)
    as (Ha & Hb & _).
  split; [exact H1 |]. split; [exact H2 |]. split; [exact Ha | exact Hb].
Defined.

Lemma stop_status_check_failure_witness :
  IsPortForwardRunning home "argocd-server" "argocd" garbled_world
  = ((false, 0,
      Some (wrapError "failed to parse PID: " (NumError "Atoi" "not-a-pid" ErrSyntax))),
     garbled_world)
  /\ StopPortForward home "argocd-server" "argocd" garbled_world
     = (Some (wrapError "failed to check port forwarding status: "
                (wrapError "failed to parse PID: "
                   (NumError "Atoi" "not-a-pid" ErrSyntax))),
        garbled_world).
Proof.
  assert (IsPortForwardRunning home "argocd-server" "argocd" garbled_world
          = ((false, 0,
              Some (wrapError "failed to parse PID: "
                      (NumError "Atoi" "not-a-pid" ErrSyntax))),
             garbled_world)) as H by (vm_compute; reflexivity).
  split; [exact H |].
  exact (stop_status_check_failure home _ _ _ _ _ _ _ H).
Defined.

Lemma stop_twice_witness :
  StopPortForward home "argocd-server" "argocd" running_world
  = (None, unlinked pidFile stale_world)
  /\ StopPortForward home "argocd-server" "argocd" (unlinked pidFile stale_world)
     = (Some (errorString "port forwarding is not running"),
        unlinked pidFile stale_world).
Proof.
  assert (StopPortForward home "argocd-server" "argocd" running_world
          = (None, unlinked pidFile stale_world)) as H by (vm_compute; reflexivity).
  split; [exact H |]. exact (stop_twice home _ _ _ _ H).
Defined.

Lemma check_ignores_white_space_witness :
  blank " " = true /\ blank nl = true /\ minInt <= 4711 <= maxInt
  /\ files echoed_world !! pidFile = Some (File (" " ++ Itoa 4711 ++ nl) true true)
  /\ alive echoed_world 4711
  /\ IsPortForwardRunning home "argocd-server" "argocd" echoed_world
     = ((true, 4711, None), echoed_world).
Proof.
  assert (minInt <= 4711 <= maxInt) as Hr by (unfold minInt, maxInt; lia).
  assert (files echoed_world !! pidFile
          = Some (File (" " ++ Itoa 4711 ++ nl) true true)) as Hf by reflexivity.
  assert (alive echoed_world 4711) as Ha by exact (proj2 running_world_running).
  split; [reflexivity |]. split; [reflexivity |]. split; [exact Hr |].
  split; [exact Hf |]. split; [exact Ha |].
  exact (check_ignores_white_space home "argocd-server" "argocd" echoed_world
           " " nl 4711 true eq_refl eq_refl Hr Hf Ha).
Defined.

Lemma family_world_running :
  session_running home family_world "argocd-server" "argocd" 4711.
Proof.
  split.
  - exists "4711", true. split; reflexivity.
  - exists 4711%positive, (mkProc 4711 true ["kubectl"; "port-forward"]).
    split; [reflexivity |]. split; reflexivity.
Defined.

Lemma stop_signals_process_group_witness :
  session_running home family_world "argocd-server" "argocd" 4711
  /\ (StopPortForward home "argocd-server" "argocd" family_world).1 = None
  /\ procs (StopPortForward home "argocd-server" "argocd" family_world).2
       !! 4720%positive = None
  /\ procs (StopPortForward home "argocd-server" "argocd" family_world).2
       !! 812%positive = Some (mkProc 812 true ["bash"]).
Proof.
  assert (4711 <> 1)%positive as Hp by discriminate.
  destruct (stop_signals_process_group home _ _ _ _ family_world_running Hp)
    as [Hiff Hprocs].
  assert ((StopPortForward home "argocd-server" "argocd" family_world).1 = None)
    as Hok.
  { apply Hiff. exists 4720%positive, (mkProc 4711 true ["kubectl"; "helper"]).
    split; reflexivity. }
  split; [exact family_world_running |]. split; [exact Hok |].
  split; [exact (Hprocs Hok 4720%positive) | exact (Hprocs Hok 812%positive)].
Defined.

Lemma start_failure_leaves_no_trace_witness :
  ((StartPortForward home "argocd-server" "argocd" 8080 443 bare_world).1
   = (0, Some (wrapError "failed to start port-forward: " (ExecError "kubectl")))
   /\ procs (StartPortForward home "argocd-server" "argocd" 8080 443 bare_world).2
      = procs bare_world)
  /\ ((StartPortForward home "argocd-server" "argocd" 8080 443 blocked_world).1
      = (0, Some (wrapError "failed to create kargo data directory: "
                    (PathError "mkdir" (Join [home; "kargo"]) ENOTDIR)))
      /\ procs (StartPortForward home "argocd-server" "argocd" 8080 443 blocked_world).2
         = procs blocked_world).
Proof.
  assert ((StartPortForward home "argocd-server" "argocd" 8080 443 bare_world).1
          = (0, Some (wrapError "failed to start port-forward: " (ExecError "kubectl"))))
    as H1 by (vm_compute; reflexivity).
  assert ((StartPortForward home "argocd-server" "argocd" 8080 443 blocked_world).1
          = (0, Some (wrapError "failed to create kargo data directory: "
                        (PathError "mkdir" (Join [home; "kargo"]) ENOTDIR))))
    as H2 by (vm_compute; reflexivity).
  split.
  - split; [exact H1 |].
    exact (proj1 (proj2 (start_failure_leaves_no_trace home _ _ _ _ _ _ _ H1))).
  - split; [exact H2 |].
    exact (proj1 (proj2 (start_failure_leaves_no_trace home _ _ _ _ _ _ _ H2))).
Defined.

Lemma booted_world_start :
  (StartPortForward home "argocd-server" "argocd" 8080 443 booted_world).1
  = (813, None).
Proof. vm_compute. reflexivity. Defined.

Lemma start_then_check_witness :
  (StartPortForward home "argocd-server" "argocd" 8080 443 booted_world).1 = (813, None)
  /\ IsPortForwardRunning home "argocd-server" "argocd"
       (StartPortForward home "argocd-server" "argocd" 8080 443 booted_world).2
     = ((true, 813, None),
        (StartPortForward home "argocd-server" "argocd" 8080 443 booted_world).2).
Proof.
  split; [exact booted_world_start |].
  apply (start_then_check home _ _ _ _ _ _ booted_world_start).
  - intros data wr. discriminate.
  - unfold maxInt. lia.
Defined.

Lemma start_then_stop_witness :
  (StartPortForward home "argocd-server" "argocd" 8080 443 booted_world).1 = (813, None)
  /\ no_pid_file home booted_world "argocd-server" "argocd"
  /\ StopPortForward home "argocd-server" "argocd"
       (StartPortForward home "argocd-server" "argocd" 8080 443 booted_world).2
     = (None, mkWorld {[ Join [home; "kargo"] := Dir ]}
                      (procs booted_world) (executables booted_world)).
Proof.
  assert (no_pid_file home booted_world "argocd-server" "argocd") as Hno
    by reflexivity.
  split; [exact booted_world_start |]. split; [exact Hno |].
  rewrite (start_then_stop home _ _ _ _ _ _ booted_world_start Hno).
  - vm_compute. reflexivity.
  - unfold maxInt. lia.
  - exists (mkProc 1 false ["/sbin/init"]). reflexivity.
  - intros q pr Hq.
    destruct (decide (q = 1%positive)) as [-> | H1];
      [injection Hq as <-; discriminate |].
    destruct (decide (q = 812%positive)) as [-> | H2];
      [injection Hq as <-; discriminate |].
    exfalso. unfold booted_world in Hq. cbn [procs] in Hq.
    rewrite lookup_insert_ne in Hq by done.
    rewrite lookup_singleton_ne in Hq by done. done.
Defined.


Lemma check_frame_witness :
  Join [home; "kargo"] <> pidFile
  /\ files (IsPortForwardRunning home "argocd-server" "argocd" stale_world).2
       !! Join [home; "kargo"] = Some Dir
  /\ procs (IsPortForwardRunning home "argocd-server" "argocd" family_world).2
     = procs family_world.
Proof.
  assert (Join [home; "kargo"] <> pidFile) as Hne by discriminate.
  split; [exact Hne |]. split.
  - destruct (check_frame home "argocd-server" "argocd" stale_world)
      as (_ & _ & Hf & _).
    rewrite (Hf _ Hne). reflexivity.
  - exact (proj1 (check_frame home "argocd-server" "argocd" family_world)).
Defined.

Lemma stop_frame_witness :
  Join [home; "kargo"] <> pidFile
  /\ files (StopPortForward home "argocd-server" "argocd" family_world).2
       !! Join [home; "kargo"] = Some Dir
  /\ (procs (StopPortForward home "argocd-server" "argocd" family_world).2
         !! 812%positive = Some (mkProc 812 true ["bash"]) ->
      procs family_world !! 812%positive = Some (mkProc 812 true ["bash"])).
Proof.
  assert (Join [home; "kargo"] <> pidFile) as Hne by discriminate.
  destruct (stop_frame home "argocd-server" "argocd" family_world)
    as (_ & Hf & Hp).
  split; [exact Hne |]. split.
  - rewrite (Hf _ Hne). reflexivity.
  - exact (Hp 812%positive _).
Defined.


(** ** Further properties of the readiness waits and existence checks *)

Lemma probes_app (a b : list event) : probes (a ++ b) = probes a ++ probes b.
Proof. unfold probes. apply List.filter_app. Qed.

Lemma sleeps_app (a b : list event) : sleeps (a ++ b) = sleeps a ++ sleeps b.
Proof. unfold sleeps. apply omap_app. Qed.

(** A bounded search finds the first round that meets a condition, or
    none does. *)
Lemma first_round (P : nat -> bool) (n : nat) :
  (exists k, (k < n)%nat /\ P k = true /\ forall j, (j < k)%nat -> P j = false)
  \/ (forall k, (k < n)%nat -> P k = false).
Proof.
  induction n as [| n [(k & Hk & Hp & Hf) | Hnone]].
  - right. intros k Hk. lia.
  - left. exists k. split; [lia | done].
  - destruct (P n) eqn:E.
    + left. exists n. split; [lia |]. split; [done |]. intros j Hj. by apply Hnone.
    + right. intros k Hk. destruct (decide (k = n)) as [-> | Hne]; [done |].
      apply Hnone. lia.
Qed.

Section WaitsAgain.

Variable env : Env.

(** X15. Whatever the cluster answers, WaitForNamespaceDeleted ends after
    at most 60 probes.  It returns success exactly when one of its at most
    60 probes fails (the namespace is gone), having slept one second after
    each earlier probe and not after the last; otherwise it returns the
    timeout error after 60 probes and 60 seconds of sleep. *)
Theorem WaitForNamespaceDeleted_total namespace t :
  let nsq := rounds "kubectl" (namespace_probe namespace) in
  let t1 := t ++ [namespace_banner namespace] in
  let result := WaitForNamespaceDeleted env namespace t in
  (result.1 = None
   <-> exists k, (k < 60)%nat /\ namespace_gone env namespace (t1 ++ nsq k) = true)
  /\ exists k,
       (k <= 60)%nat
       /\ (forall j, (j < k)%nat -> namespace_gone env namespace (t1 ++ nsq j) = false)
       /\ sleeps result.2 = sleeps t ++ replicate k 1
       /\ ((result.1 = None /\ (k < 60)%nat
            /\ probes result.2
               = probes t ++ replicate (S k) (Run "kubectl" (namespace_probe namespace)))
           \/ (result.1 = Some (namespace_timeout namespace) /\ k = 60%nat
               /\ probes result.2
                  = probes t ++ replicate 60 (Run "kubectl" (namespace_probe namespace)))).
Proof.
  intros nsq t1 result.
  assert (result = for_range 0 60 (namespace_round env namespace)
                     (mret (Some (namespace_timeout namespace))) t1) as Hres by reflexivity.
  destruct (first_round (fun k => namespace_gone env namespace (t1 ++ nsq k)) 60)
    as [(k & Hk & Hsat & Hunsat) | Hnone].
  - cbv beta in Hsat, Hunsat.
    pose proof (poll_satisfied "kubectl" (namespace_probe namespace)
                  (namespace_gone env namespace) _ _ _ (mret (Some (namespace_timeout namespace)))
                  (namespace_round_spec env namespace) 60 0 t1 k Hk Hunsat Hsat) as Hp.
    rewrite Hp in Hres. rewrite Hres. cbn [fst snd].
    split; [split; [eauto | done] |].
    exists k. split; [lia |]. split; [done |].
    unfold t1. rewrite !sleeps_app, !probes_app, sleeps_rounds, probes_rounds.
    change (sleeps [namespace_banner namespace]) with (@nil Z).
    change (sleeps [Run "kubectl" (namespace_probe namespace); Stdout ("✅ Namespace '" ++ namespace ++ "' has been deleted" ++ nl)%string])
      with (@nil Z).
    change (probes [namespace_banner namespace]) with (@nil event).
    change (probes [Run "kubectl" (namespace_probe namespace); Stdout ("✅ Namespace '" ++ namespace ++ "' has been deleted" ++ nl)%string])
      with [Run "kubectl" (namespace_probe namespace)].
    rewrite !app_nil_r. split; [done |]. left. split; [done |]. split; [done |].
    f_equal. symmetry. apply replicate_S_end.
  - cbv beta in Hnone.
    pose proof (poll_exhausted "kubectl" (namespace_probe namespace)
                  (namespace_gone env namespace) _ _ _ (mret (Some (namespace_timeout namespace)))
                  (namespace_round_spec env namespace) 60 0 t1 Hnone) as Hp.
    rewrite Hp in Hres. rewrite Hres. cbn [fst snd mret Sh_ret]. split.
    + split; [done |]. intros (k & Hk & Hsat). rewrite (Hnone k Hk) in Hsat. done.
    + exists 60%nat. split; [lia |]. split; [done |].
      unfold t1. rewrite !sleeps_app, !probes_app, sleeps_rounds, probes_rounds.
      change (sleeps [namespace_banner namespace]) with (@nil Z).
      change (probes [namespace_banner namespace]) with (@nil event).
      rewrite !app_nil_r.
      split; [reflexivity |]. right. split; [reflexivity |]. split; reflexivity.
Qed.

(** X16. The same for WaitForArgoRolloutsReady, whose probe is met when
    the pod listing succeeds and mentions "Running": a listing that fails
    counts as "not ready yet", never as an error of its own. *)
Theorem WaitForArgoRolloutsReady_total namespace t :
  let pods := rounds "kubectl" (rollouts_probe namespace) in
  let t2 := t ++ [rollouts_banner namespace] in
  let result := WaitForArgoRolloutsReady env namespace t in
  (result.1 = None
   <-> exists k, (k < 60)%nat /\ rollouts_ready env namespace (t2 ++ pods k) = true)
  /\ exists k,
       (k <= 60)%nat
       /\ (forall j, (j < k)%nat -> rollouts_ready env namespace (t2 ++ pods j) = false)
       /\ sleeps result.2 = sleeps t ++ replicate k 1
       /\ ((result.1 = None /\ (k < 60)%nat
            /\ probes result.2
               = probes t ++ replicate (S k) (Run "kubectl" (rollouts_probe namespace)))
           \/ (result.1 = Some (rollouts_timeout namespace) /\ k = 60%nat
               /\ probes result.2
                  = probes t ++ replicate 60 (Run "kubectl" (rollouts_probe namespace)))).
Proof.
  intros pods t2 result.
  assert (result = for_range 0 60 (rollouts_round env namespace)
                     (mret (Some (rollouts_timeout namespace))) t2) as Hres by reflexivity.
  destruct (first_round (fun k => rollouts_ready env namespace (t2 ++ pods k)) 60)
    as [(k & Hk & Hsat & Hunsat) | Hnone].
  - cbv beta in Hsat, Hunsat.
    pose proof (poll_satisfied "kubectl" (rollouts_probe namespace)
                  (rollouts_ready env namespace) _ _ _ (mret (Some (rollouts_timeout namespace)))
                  (rollouts_round_spec env namespace) 60 0 t2 k Hk Hunsat Hsat) as Hp.
    rewrite Hp in Hres. rewrite Hres. cbn [fst snd].
    split; [split; [eauto | done] |].
    exists k. split; [lia |]. split; [done |].
    unfold t2. rewrite !sleeps_app, !probes_app, sleeps_rounds, probes_rounds.
    change (sleeps [rollouts_banner namespace]) with (@nil Z).
    change (sleeps [Run "kubectl" (rollouts_probe namespace); Stdout ("✅ Argo Rollouts is ready" ++ nl)%string])
      with (@nil Z).
    change (probes [rollouts_banner namespace]) with (@nil event).
    change (probes [Run "kubectl" (rollouts_probe namespace); Stdout ("✅ Argo Rollouts is ready" ++ nl)%string])
      with [Run "kubectl" (rollouts_probe namespace)].
    rewrite !app_nil_r. split; [done |]. left. split; [done |]. split; [done |].
    f_equal. symmetry. apply replicate_S_end.
  - cbv beta in Hnone.
    pose proof (poll_exhausted "kubectl" (rollouts_probe namespace)
                  (rollouts_ready env namespace) _ _ _ (mret (Some (rollouts_timeout namespace)))
                  (rollouts_round_spec env namespace) 60 0 t2 Hnone) as Hp.
    rewrite Hp in Hres. rewrite Hres. cbn [fst snd mret Sh_ret]. split.
    + split; [done |]. intros (k & Hk & Hsat). rewrite (Hnone k Hk) in Hsat. done.
    + exists 60%nat. split; [lia |]. split; [done |].
      unfold t2. rewrite !sleeps_app, !probes_app, sleeps_rounds, probes_rounds.
      change (sleeps [rollouts_banner namespace]) with (@nil Z).
      change (probes [rollouts_banner namespace]) with (@nil event).
      rewrite !app_nil_r.
      split; [reflexivity |]. right. split; [reflexivity |]. split; reflexivity.
Qed.

End WaitsAgain.

Section Listings.

Lemma Contains_nl_cons c r :
  Contains (String c r) nl = false ->
  Ascii.eqb c "010"%char = false /\ Contains r nl = false.
Proof.
  rewrite Contains_unfold. unfold nl at 1. cbn [String.prefix].
  destruct (ascii_dec "010" c) as [<- | Hne].
  - by destruct r.
  - intros H. split; [| done]. apply Ascii.eqb_neq. congruence.
Qed.

Lemma SplitLines_line l : Contains l nl = false -> SplitLines l = [l].
Proof.
  induction l as [| c r IH]; [done |]. intros H.
  apply Contains_nl_cons in H as [Hc Hr]. cbn [SplitLines].
  by rewrite Hc, IH.
Qed.

Lemma SplitLines_append_nl l r :
  Contains l nl = false -> SplitLines (l ++ nl ++ r)%string = l :: SplitLines r.
Proof.
  induction l as [| c l IH]; intros H.
  - reflexivity.
  - apply Contains_nl_cons in H as [Hc Hl].
    change (String c l ++ nl ++ r)%string with (String c (l ++ nl ++ r)%string).
    cbn [SplitLines]. by rewrite Hc, IH.
Qed.

(** Split undoes join: the lines of a listing are its entries. *)
Lemma SplitLines_JoinLines lines :
  lines <> [] ->
  Forall (fun l => Contains l nl = false) lines ->
  SplitLines (JoinLines lines) = lines.
Proof.
  intros Hne Hall. induction Hall as [| l lines Hl Hall IH]; [done |].
  destruct lines as [| l' lines].
  - by apply SplitLines_line.
  - change (JoinLines (l :: l' :: lines))
      with (l ++ nl ++ JoinLines (l' :: lines))%string.
    rewrite SplitLines_append_nl by done. f_equal. by apply IH.
Qed.

Variable env : Env.

(** X17. When [kind get clusters] succeeds and prints a listing with one
    entry per line, ClusterExists answers true exactly when the name is one
    of the entries with the white space around it removed: an entry that
    only starts with, or only contains, the name does not count. *)
Theorem ClusterExists_listing name t entries :
  entries <> [] ->
  Forall (fun l => Contains l nl = false) entries ->
  cmd_err (env t "kind" ["get"; "clusters"]) = None ->
  cmd_out (env t "kind" ["get"; "clusters"]) = JoinLines entries ->
  (ClusterExists env name t).1 = (bool_decide (name ∈ map TrimSpace entries), None).
Proof.
  intros Hne Hall Herr Hout.
  unfold ClusterExists, mbind, Sh_bind, sh_Output. cbv zeta.
  rewrite Herr, Hout. cbn [fst mret Sh_ret].
  rewrite range_clusters_spec, SplitLines_JoinLines by done. f_equal.
  destruct (existsb _ entries) eqn:E.
  - symmetry. apply bool_decide_eq_true.
    apply existsb_exists in E as (l & Hin & Heq). apply String.eqb_eq in Heq.
    subst name. apply list_elem_of_In, in_map. exact Hin.
  - symmetry. apply bool_decide_eq_false. intros Hin.
    apply list_elem_of_In, in_map_iff in Hin as (l & Heq & Hin).
    assert (existsb (fun cluster => String.eqb (TrimSpace cluster) name) entries = true)
      as Hex; [| congruence].
    apply existsb_exists. exists l. split; [done |]. by apply String.eqb_eq.
Qed.

Lemma trim_left_all_blank runes s :
  strip_one runes "" = None ->
  (forall a r, ascii_space a = true -> strip_one runes (String a r) = Some r) ->
  blank s = true ->
  forall fuel, (String.length s <= fuel)%nat -> trim_left runes fuel s = "".
Proof.
  intros He Hstrip. induction s as [| a s IH]; intros Hb fuel Hlen.
  - destruct fuel; [done |]. cbn. by rewrite He.
  - cbn in Hb. apply andb_true_iff in Hb as [Ha Hb].
    destruct fuel as [| fuel]; [cbn in Hlen; lia |].
    cbn [trim_left]. rewrite (Hstrip _ _ Ha). apply IH; [done |]. cbn in Hlen. lia.
Qed.

(** Nothing is left of a string of white space. *)
Lemma TrimSpace_blank s : blank s = true -> TrimSpace s = "".
Proof.
  intros Hb. unfold TrimSpace.
  assert (TrimLeftSpace s = "") as ->; [| done].
  unfold TrimLeftSpace. apply trim_left_all_blank; auto using strip_one_space.
Qed.

(** X18. ArgoRolloutsExists never returns an error.  It answers "not
    installed" when the pod listing fails, for whatever reason, and when
    the listing prints nothing but white space; it answers "installed"
    only for a listing that succeeded. *)
Theorem ArgoRolloutsExists_answers namespace t :
  let listing := env t "kubectl" (rollouts_probe namespace) in
  let result := (ArgoRolloutsExists env namespace t).1 in
  result.2 = None
  /\ (is_Some (cmd_err listing) -> result.1 = false)
  /\ (blank (cmd_out listing) = true -> result.1 = false)
  /\ (result.1 = true -> cmd_err listing = None /\ TrimSpace (cmd_out listing) <> "").
Proof.
  intros listing result.
  assert (result = match cmd_err listing with
                   | Some _ => (false, None)
                   | None => (negb (String.eqb (TrimSpace (cmd_out listing)) ""), None)
                   end) as ->.
  { unfold result, ArgoRolloutsExists, mbind, Sh_bind, sh_Output. cbv zeta.
    fold (rollouts_probe namespace). fold listing. by destruct (cmd_err listing). }
  destruct (cmd_err listing) as [e|]; cbn [fst snd].
  - split; [done |]. split; [done |]. split; [done |]. done.
  - split; [done |]. split; [by intros [? ?] |]. split.
    + intros Hb. by rewrite TrimSpace_blank.
    + intros H. split; [done |]. intros E. by rewrite E in H.
Qed.

End Listings.

Lemma ClusterExists_listing_witness :
  (ClusterExists (Fake.listing (JoinLines ["kargo-dev"; " kargo "; "kind"])) "kargo" []).1
  = (true, None)
  /\ (ClusterExists (Fake.listing (JoinLines ["kargo-dev"; "kind"])) "kargo" []).1
     = (false, None).
Proof.
  split.
  - rewrite (ClusterExists_listing _ "kargo" [] ["kargo-dev"; " kargo "; "kind"]);
      [reflexivity | discriminate | repeat constructor | reflexivity | reflexivity].
  - rewrite (ClusterExists_listing _ "kargo" [] ["kargo-dev"; "kind"]);
      [reflexivity | discriminate | repeat constructor | reflexivity | reflexivity].
Defined.

Lemma ArgoRolloutsExists_answers_witness :
  blank (" " ++ nl)%string = true
  /\ (ArgoRolloutsExists (Fake.listing (" " ++ nl)%string) "argo-rollouts" []).1
     = (false, None)
  /\ (ArgoRolloutsExists Fake.denied "argo-rollouts" []).1 = (false, None).
Proof.
  pose proof (ArgoRolloutsExists_answers (Fake.listing (" " ++ nl)%string)
                "argo-rollouts" []) as (H1 & _ & H2 & _).
  pose proof (ArgoRolloutsExists_answers Fake.denied "argo-rollouts" [])
    as (H3 & H4 & _).
  split; [reflexivity |]. split.
  - specialize (H2 eq_refl).
    destruct (ArgoRolloutsExists (Fake.listing (" " ++ nl)%string) "argo-rollouts" []).1
      as [b e]. cbn [fst snd] in *. by subst.
  - specialize (H4 (ex_intro _ _ eq_refl)).
    destruct (ArgoRolloutsExists Fake.denied "argo-rollouts" []).1 as [b e].
    cbn [fst snd] in *. by subst.
Defined.

(** ** Properties of the targets *)

Lemma ClusterExists_run env name t :
  ClusterExists env name t
  = ((ClusterExists env name t).1, t ++ [Run "kind" ["get"; "clusters"]]).
Proof.
  unfold ClusterExists, mbind, Sh_bind, sh_Output. cbv zeta.
  by destruct (cmd_err _).
Qed.

Lemma ReleaseExists_run env name namespace t :
  ReleaseExists env name namespace t
  = ((match cmd_err (env t "helm" ["status"; name; "--namespace"; namespace]) with
      | Some _ => false
      | None => true
      end, None),
     t ++ [Run "helm" ["status"; name; "--namespace"; namespace]]).
Proof.
  unfold ReleaseExists, mbind, Sh_bind, sh_Run. by destruct (cmd_err _).
Qed.

(** Running a target step by step: unfold the sequencing and the helpers,
    and split on what the environment answers. *)
Ltac sh_unfold :=
  unfold CreateCluster, DeleteCluster, ExportKubeconfig, GetClusterInfo,
    GetNodeStatus, EnsureHelmRepo, InstallHelmChart, UpgradeHelmChart,
    UninstallHelmChart, GetHelmChartStatus,
    mbind, Sh_bind, mret, Sh_ret, sh_Run, sh_Output, Printf, time_Sleep in *.

Ltac sh_answer :=
  match goal with
  | |- context [cmd_err (?env ?t ?c ?a)] =>
      let E := fresh "Eanswer" in destruct (cmd_err (env t c a)) eqn:E
  end.

Ltac sh_steps :=
  repeat first [progress cbn [negb fst snd] | rewrite ReleaseExists_run | sh_answer].

(** The listing of the clusters, asked at [t1]: name its answer. *)
Ltac sh_listing env t1 found err :=
  let Hrun := fresh "Hrun" in
  let t' := fresh "t'" in
  pose proof (ClusterExists_run env clusterName t1) as Hrun;
  destruct (ClusterExists env clusterName t1) as [[found err] t'];
  cbn [fst snd] in Hrun; injection Hrun as ->; cbn [fst snd].

Ltac sh_probes :=
  cbn [fst snd]; rewrite ?probes_app; cbn [probes List.filter app];
  rewrite ?app_nil_r, <- ?app_assoc; cbn [app].

Section KindTargets.

Variable env : Env.
Variable Error : error -> string.
Variable Getenv : string -> string.


End KindTargets.

Section KindTargetsMore.

Variable env : Env.
Variable Error : error -> string.
Variable Getenv : string -> string.




End KindTargetsMore.

Section HelmTargets.

Variable env : Env.
Variable Error : error -> string.



End HelmTargets.

Ltac sh_status_trace :=
  match goal with
  | H : cmd_err (?env ?T "helm" ("status" :: _)) = _ |- _ => exists T
  end.

Ltac sh_sleeps :=
  cbn [fst snd]; rewrite ?sleeps_app;
  repeat match goal with
         | |- context [sleeps [?e]] =>
             let s := eval cbv in (sleeps [e]) in change (sleeps [e]) with s
         end;
  rewrite ?app_nil_r.

Section UpTargets.

Variable env : Env.
Variable Error : error -> string.

(** X25. The steps of CertManager:Up after its dependency: it tries to
    create the namespace and goes on whether that worked or not, asks
    [helm status], and then upgrades when the release is there and
    installs when it is not, always three commands.  The only error it
    returns is that of the upgrade or the installation, wrapped. *)
Theorem CertManager_Up_steps_commands t :
  let result := CertManager_Up_steps env t in
  exists t2,
    probes t2 = probes t ++ [kubectl_create_namespace certManagerNS]
    /\ let present := (ReleaseExists env "cert-manager" certManagerNS t2).1.1 in
       probes result.2
       = probes t ++ [kubectl_create_namespace certManagerNS;
                      helm_status "cert-manager" certManagerNS;
                      helm_cert_manager present]
       /\ (result.1 = None
           \/ exists e,
                result.1
                = Some (wrapError (if present then "failed to upgrade cert-manager: "
                                   else "failed to install cert-manager: ") e)).
Proof.
  intros result. subst result.
  unfold CertManager_Up_steps. sh_unfold. sh_steps; sh_status_trace;
    (split; [sh_probes; reflexivity |]);
    rewrite ReleaseExists_run;
    match goal with H : cmd_err (_ _ "helm" ("status" :: _)) = _ |- _ => rewrite H end;
    cbn [fst snd]; (split; [sh_probes; reflexivity | eauto]).
Qed.


End UpTargets.

Section Dependencies.

Variable env : Env.
Variable Error : error -> string.

(** Once [mg.Deps] has looked at Kind.Up, looking again gives the same and
    runs nothing. *)
Lemma Deps_Kind_Up_again s o s' :
  Deps_Kind_Up env Error s = (o, s') ->
  Deps_Kind_Up env Error s' = (o, s')
  /\ (forall x, o = Returned x -> KindUp_once s' = Some None).
Proof.
  unfold Deps_Kind_Up. destruct (KindUp_once s) as [[e|]|] eqn:E.
  - intros [= <- <-]. rewrite E. split; [done | intros; done].
  - intros [= <- <-]. rewrite E. split; [done | intros; done].
  - destruct (Kind_Up env (events s)) as [[e|] t1]; intros [= <- <-];
      cbn [KindUp_once]; split; try done.
Qed.

Lemma Up_after_dependency (steps : Sh (option error)) s :
  KindUp_once s = Some None ->
  (_ ← Deps_Kind_Up env Error; lift steps) s = lift steps s.
Proof.
  intros H. unfold mbind, Mage_bind, Deps_Kind_Up. by rewrite H.
Qed.

Lemma Up_after_failure (steps : Sh (option error)) s e :
  KindUp_once s = Some (Some e) ->
  (_ ← Deps_Kind_Up env Error; lift steps) s = (Fatal 1 (Error e), s).
Proof.
  intros H. unfold mbind, Mage_bind, Deps_Kind_Up. by rewrite H.
Qed.

Lemma Up_first (steps : Sh (option error)) s :
  let first := (_ ← Deps_Kind_Up env Error; lift steps) s in
  match first.1 with
  | Returned _ => KindUp_once first.2 = Some None
  | Fatal x msg => exists e, x = 1 /\ msg = Error e /\ KindUp_once first.2 = Some (Some e)
  end.
Proof.
  cbv zeta. unfold mbind, Mage_bind, Deps_Kind_Up.
  destruct (KindUp_once s) as [[e|]|] eqn:E.
  - cbn. eauto.
  - unfold lift. destruct (steps (events s)). cbn. done.
  - destruct (Kind_Up env (events s)) as [[e|] t1].
    + cbn. eauto.
    + unfold lift. cbn [events KindUp_once]. destruct (steps t1). cbn. done.
Qed.

(** X27. Kind:Up runs at most once in a mage process as a dependency.
    When CertManager:Up has run, ArgoCD:Up in the same process runs no
    [kind] command: after a run that passed the dependency it goes
    straight to its own steps, and after a run the dependency stopped it
    stops with the same fatal error, changing nothing.  The same holds
    with the two targets exchanged. *)
Theorem Kind_Up_runs_once s :
  let after_cm := CertManager_Up env Error s in
  let after_argo := ArgoCD_Up env Error s in
  match after_cm.1 with
  | Returned _ =>
      ArgoCD_Up env Error after_cm.2 = lift (ArgoCD_Up_steps env) after_cm.2
  | Fatal x msg => ArgoCD_Up env Error after_cm.2 = (Fatal x msg, after_cm.2)
  end
  /\ match after_argo.1 with
     | Returned _ =>
         CertManager_Up env Error after_argo.2
         = lift (CertManager_Up_steps env) after_argo.2
     | Fatal x msg => CertManager_Up env Error after_argo.2 = (Fatal x msg, after_argo.2)
     end.
Proof.
  intros after_cm after_argo. subst after_cm after_argo.
  unfold CertManager_Up, ArgoCD_Up. split.
  - pose proof (Up_first (CertManager_Up_steps env) s) as H. cbv zeta in H.
    destruct ((_ ← Deps_Kind_Up env Error; lift (CertManager_Up_steps env)) s)
      as [[r | x msg] s']; cbn [fst snd] in *.
    + by apply Up_after_dependency.
    + destruct H as (e & -> & -> & H). by apply Up_after_failure.
  - pose proof (Up_first (ArgoCD_Up_steps env) s) as H. cbv zeta in H.
    destruct ((_ ← Deps_Kind_Up env Error; lift (ArgoCD_Up_steps env)) s)
      as [[r | x msg] s']; cbn [fst snd] in *.
    + by apply Up_after_dependency.
    + destruct H as (e & -> & -> & H). by apply Up_after_failure.
Qed.

(** None of the targets below sleeps. *)
Lemma Kind_Up_sleeps t : sleeps (Kind_Up env t).2 = sleeps t.
Proof.
  unfold Kind_Up. sh_unfold.
  sh_listing env (t ++ [Stdout ("🚀 Setting up kind cluster..." ++ nl)%string]) found err.
  destruct err as [e|], found; sh_steps; sh_sleeps; reflexivity.
Qed.

Lemma CertManager_Up_steps_sleeps t : sleeps (CertManager_Up_steps env t).2 = sleeps t.
Proof. unfold CertManager_Up_steps. sh_unfold. sh_steps; sh_sleeps; reflexivity. Qed.

Lemma ArgoCD_Up_steps_sleeps t : sleeps (ArgoCD_Up_steps env t).2 = sleeps t.
Proof. unfold ArgoCD_Up_steps. sh_unfold. sh_steps; sh_sleeps; reflexivity. Qed.

Lemma CertManager_Down_sleeps t : sleeps (CertManager_Down env t).2 = sleeps t.
Proof. unfold CertManager_Down. sh_unfold. sh_steps; sh_sleeps; reflexivity. Qed.

Lemma ArgoCD_Down_sleeps t : sleeps (ArgoCD_Down env t).2 = sleeps t.
Proof. unfold ArgoCD_Down. sh_unfold. sh_steps; sh_sleeps; reflexivity. Qed.

Lemma Up_sleeps (steps : Sh (option error)) s :
  (forall t, sleeps (steps t).2 = sleeps t) ->
  sleeps (events ((_ ← Deps_Kind_Up env Error; lift steps) s).2) = sleeps (events s).
Proof.
  intros Hsteps. unfold mbind, Mage_bind, Deps_Kind_Up.
  destruct (KindUp_once s) as [[e|]|] eqn:E.
  - done.
  - unfold lift. pose proof (Hsteps (events s)) as H.
    destruct (steps (events s)). done.
  - pose proof (Kind_Up_sleeps (events s)) as Hk.
    destruct (Kind_Up env (events s)) as [[e|] t1]; cbn [snd] in Hk; [done |].
    unfold lift. cbn [events KindUp_once]. pose proof (Hsteps t1) as H.
    destruct (steps t1). cbn [snd events] in *. congruence.
Qed.

(** The shape of the two UpClean targets: tear down, pause, set up. *)
Lemma UpClean_pause (banner waiting done_msg failed_down failed_up : string)
    (down steps : Sh (option error)) s :
  (forall t, sleeps (down t).2 = sleeps t) ->
  (forall t, sleeps (steps t).2 = sleeps t) ->
  let clean : Mage (option error) :=
    _ ← lift (Printf banner);
    err ← lift down;
    match err with
    | Some err => mret (Some (wrapError failed_down err))
    | None =>
        _ ← lift (Printf waiting);
        _ ← lift (time_Sleep 5);
        err ← (_ ← Deps_Kind_Up env Error; lift steps);
        match err with
        | Some err => mret (Some (wrapError failed_up err))
        | None =>
            _ ← lift (Printf done_msg);
            mret None
        end
    end in
  let torn := down (events s ++ [Stdout banner]) in
  match torn.1 with
  | Some e =>
      clean s = (Returned (Some (wrapError failed_down e)), mkMage torn.2 (KindUp_once s))
      /\ sleeps (events (clean s).2) = sleeps (events s)
  | None => sleeps (events (clean s).2) = sleeps (events s) ++ [5]
  end.
Proof.
  intros Hdown Hsteps clean torn. subst torn.
  pose proof (Hdown (events s ++ [Stdout banner])) as Hd.
  assert (clean s
          = match down (events s ++ [Stdout banner]) with
            | (Some e, t1) =>
                (Returned (Some (wrapError failed_down e)), mkMage t1 (KindUp_once s))
            | (None, t1) =>
                (err ← (_ ← Deps_Kind_Up env Error; lift steps);
                 match err with
                 | Some err => mret (Some (wrapError failed_up err))
                 | None =>
                     _ ← lift (Printf done_msg);
                     mret None
                 end)
                  (mkMage ((t1 ++ [Stdout waiting]) ++ [Sleep 5]) (KindUp_once s))
            end) as Hclean.
  { subst clean. unfold mbind at 1 2, Mage_bind at 1 2, lift at 1 2, Printf at 1.
    cbn [events KindUp_once].
    destruct (down (events s ++ [Stdout banner])) as [[e|] t1]; [reflexivity |].
    unfold mbind at 1 2, Mage_bind at 1 2, lift at 1 2, Printf at 1, time_Sleep.
    reflexivity. }
  rewrite Hclean. clear Hclean clean.
  destruct (down (events s ++ [Stdout banner])) as [[e|] t1]; cbn [fst snd] in *.
  - split; [done |]. cbn [events]. rewrite Hd, sleeps_app. cbn. by rewrite app_nil_r.
  - set (s1 := mkMage ((t1 ++ [Stdout waiting]) ++ [Sleep 5]) (KindUp_once s)).
    pose proof (Up_sleeps steps s1 Hsteps) as Hup.
    unfold mbind at 1, Mage_bind at 1.
    destruct ((_ ← Deps_Kind_Up env Error; lift steps) s1) as [[[e|] | x msg] s2];
      cbn [snd] in Hup;
      unfold mbind, Mage_bind, lift, Printf, mret, Mage_ret; cbn [snd events];
      rewrite ?sleeps_app; rewrite Hup; unfold s1; cbn [events];
      rewrite !sleeps_app, Hd, sleeps_app; cbn; rewrite ?app_nil_r; reflexivity.
Qed.

(** X28. The UpClean targets pause for five seconds exactly once, between
    a teardown that did not fail and the setup.  When the teardown fails
    they return its error wrapped, without pausing, without running the
    dependency and without any further command. *)
Theorem UpClean_pauses_once s :
  let cm := CertManager_UpClean env Error s in
  let cm_down :=
    CertManager_Down env (events s ++ [Stdout ("🧹 Clean setting up cert-manager..." ++ nl)]) in
  let argo := ArgoCD_UpClean env Error s in
  let argo_down :=
    ArgoCD_Down env (events s ++ [Stdout ("🧹 Clean setting up ArgoCD..." ++ nl)]) in
  match cm_down.1 with
  | Some e =>
      cm = (Returned (Some (wrapError "failed to uninstall existing cert-manager: " e)),
            mkMage cm_down.2 (KindUp_once s))
      /\ sleeps (events cm.2) = sleeps (events s)
  | None => sleeps (events cm.2) = sleeps (events s) ++ [5]
  end
  /\ match argo_down.1 with
     | Some e =>
         argo = (Returned (Some (wrapError "failed to uninstall existing ArgoCD: " e)),
                 mkMage argo_down.2 (KindUp_once s))
         /\ sleeps (events argo.2) = sleeps (events s)
     | None => sleeps (events argo.2) = sleeps (events s) ++ [5]
     end.
Proof.
  intros cm cm_down argo argo_down. subst cm cm_down argo argo_down. split.
  - exact (UpClean_pause _ _ _ _ _ _ _ s CertManager_Down_sleeps
             CertManager_Up_steps_sleeps).
  - exact (UpClean_pause _ _ _ _ _ _ _ s ArgoCD_Down_sleeps ArgoCD_Up_steps_sleeps).
Qed.

End Dependencies.

(** *** The further fake environments, evaluated *)

Lemma WaitForNamespaceDeleted_total_witness :
  namespace_gone (Fake.gone_after 3) "argocd"
    ([namespace_banner "argocd"] ++ rounds "kubectl" (namespace_probe "argocd") 3) = true
  /\ (WaitForNamespaceDeleted (Fake.gone_after 3) "argocd" []).1 = None
  /\ (WaitForNamespaceDeleted Fake.never "argocd" []).1 <> None.
Proof.
  split; [reflexivity |]. split.
  - apply (proj1 (WaitForNamespaceDeleted_total (Fake.gone_after 3) "argocd" [])).
    exists 3%nat. split; [lia | reflexivity].
  - intros H.
    apply (proj1 (WaitForNamespaceDeleted_total Fake.never "argocd" [])) in H
      as (k & _ & Hk). discriminate Hk.
Defined.

Lemma WaitForArgoRolloutsReady_total_witness :
  rollouts_ready (Fake.ready_after 2 "argo-rollouts-7f9c  1/1  Running  0  12s")
    "argo-rollouts"
    ([rollouts_banner "argo-rollouts"]
     ++ rounds "kubectl" (rollouts_probe "argo-rollouts") 2) = true
  /\ (WaitForArgoRolloutsReady
        (Fake.ready_after 2 "argo-rollouts-7f9c  1/1  Running  0  12s")
        "argo-rollouts" []).1 = None
  /\ (WaitForArgoRolloutsReady Fake.denied "argo-rollouts" []).1 <> None.
Proof.
  split; [reflexivity |]. split.
  - apply (proj1 (WaitForArgoRolloutsReady_total
                    (Fake.ready_after 2 "argo-rollouts-7f9c  1/1  Running  0  12s")
                    "argo-rollouts" [])).
    exists 2%nat. split; [lia | reflexivity].
  - intros H.
    apply (proj1 (WaitForArgoRolloutsReady_total Fake.denied "argo-rollouts" [])) in H
      as (k & _ & Hk). discriminate Hk.
Defined.

(** The targets on a machine without the cluster, and on one with it. *)
Example Kind_Up_twice :
  (Kind_Up (MoreFake.cluster "") []).1 = None
  /\ probes (Kind_Up (MoreFake.cluster "") []).2
     = [kind_get_clusters; kind_create; kind_export]
  /\ (Kind_Up (MoreFake.cluster "kargo") []).1 = None
  /\ probes (Kind_Up (MoreFake.cluster "kargo") []).2
     = [kind_get_clusters; kind_export].
Proof. repeat split; vm_compute; reflexivity. Qed.

Example Kind_Down_absent :
  (Kind_Down (MoreFake.cluster "kind") []).1 = None
  /\ probes (Kind_Down (MoreFake.cluster "kind") []).2 = [kind_get_clusters].
Proof. split; vm_compute; reflexivity. Qed.

Example CertManager_Up_fresh :
  (CertManager_Up (MoreFake.no_helm "") MoreFake.message (mkMage [] None)).1
  = Returned (Some (wrapError "failed to install cert-manager: "
                      (errorString "helm: release: not found")))
  /\ probes (events (CertManager_Up (MoreFake.no_helm "") MoreFake.message
                       (mkMage [] None)).2)
     = [kind_get_clusters; kind_create; kind_export;
        kubectl_create_namespace certManagerNS;
        helm_status "cert-manager" certManagerNS;
        helm_cert_manager false].
Proof. split; vm_compute; reflexivity. Qed.

Example CertManager_UpClean_default :
  (CertManager_UpClean (MoreFake.cluster "kargo") MoreFake.message (mkMage [] None)).1
  = Returned None
  /\ sleeps (events (CertManager_UpClean (MoreFake.cluster "kargo") MoreFake.message
                       (mkMage [] None)).2) = [5]
  /\ probes (events (CertManager_UpClean (MoreFake.cluster "kargo") MoreFake.message
                       (mkMage [] None)).2)
     = [helm_status "cert-manager" certManagerNS;
        helm_uninstall "cert-manager" certManagerNS;
        kubectl_delete_crds; kubectl_delete_apiservice;
        kind_get_clusters; kind_export;
        kubectl_create_namespace certManagerNS;
        helm_status "cert-manager" certManagerNS;
        helm_cert_manager true].
Proof. repeat split; vm_compute; reflexivity. Qed.
